(** * Minimum-fee check and fee deduction ante handlers (app/feeParam.go)

  A shallow embedding of the second revision of [app/feeParam.go]
  (the one that declares [FeeParams], [FeeParamDecorator] and
  [DeductFeeDecorator]) together with the fragments of Go and of the
  cosmos-sdk types it calls into, followed by the properties of the
  handlers. *)

From Stdlib Require Import ZArith List String Ascii Bool Lia.
From Stdlib Require Import QArith Qround.
From Stdlib Require Import OrderedTypeEx Sorted DecimalString.
Import ListNotations.

Set Implicit Arguments.
Local Open Scope Z_scope.

(* ================================================================= *)
(** ** Go: the pieces of the language the file relies on *)

Module Go.

(** A call either returns or panics. *)
Inductive result (A : Type) : Type :=
| Ret (a : A)
| Panic (msg : string).
Arguments Ret {A} a.
Arguments Panic {A} msg.

Definition bind {A B} (m : result A) (k : A -> result B) : result B :=
  match m with
  | Ret a => k a
  | Panic msg => Panic msg
  end.

(** [for i, x := range xs { ys[i] = f x }], stopping at the first panic. *)
Fixpoint mapM {A B} (f : A -> result B) (xs : list A) : result (list B) :=
  match xs with
  | [] => Ret []
  | x :: xs' =>
      bind (f x) (fun y => bind (mapM f xs') (fun ys => Ret (y :: ys)))
  end.

(** [uint64] values are the integers of [[0, 2^64)]. *)
Definition is_uint64 (u : Z) : Prop := 0 <= u < 2 ^ 64.

(** The conversion [int64(u)] of a [uint64]: the same 64 bits read in
    two's complement. *)
Definition int64_of_uint64 (u : Z) : Z :=
  let r := u mod 2 ^ 64 in
  if r <? 2 ^ 63 then r else r - 2 ^ 64.

(** [big.Int.BitLen]: the length of the absolute value in bits. *)
Definition BitLen (x : Z) : Z :=
  if x =? 0 then 0 else Z.log2 (Z.abs x) + 1.

(** How a variable is handed to a callee that wants to fill it in:
    [f(x)] gives the callee a copy, [f(&x)] the address of [x]. *)
Inductive passing : Type := ByValue | ByPointer.

(** The caller's variable after the callee has stored [written] through
    whatever it received. *)
Definition after_call {A} (how : passing) (x written : A) : A :=
  match how with
  | ByValue => x
  | ByPointer => written
  end.

(** A value of interface type is [nil] or holds an implementation;
    a method call on [nil] panics. *)
Definition interface (T : Type) : Type := option T.

Definition nil_dereference : string :=
  "runtime error: invalid memory address or nil pointer dereference".

End Go.

Import Go.

Declare Scope go_scope.
Delimit Scope go_scope with go.
Notation "x <- m ;; k" := (Go.bind m (fun x => k))
(at level 61, m at next level, right associativity) : go_scope.

(* ================================================================= *)
(** ** The host environment

  What the file takes from its dependencies without fixing it here:
  the denomination syntax accepted by [sdk.ValidateDenom], the
  rendering of addresses and decimals, [fmt.Sprintf], and the type of
  the multistore the keepers work on. *)

Class Host : Type := {
(** [sdk.ValidateDenom(denom) == nil] *)
ValidateDenom : string -> bool;
(** [fmt.Sprintf(format, args...)], the arguments already rendered *)
Sprintf : string -> list string -> string;
(** [sdk.Dec.String], from the integer the [Dec] holds *)
Dec_String : Z -> string;
(** [sdk.AccAddress.String]: the bech32 form of the raw bytes *)
AccAddress_String : string -> string;
(** The state behind a [sdk.Context]: what the keepers read and write. *)
Store : Type;
}.

(* ================================================================= *)
(** ** cosmos-sdk [types]: Int, Dec, Coin, Coins, DecCoins *)

Module sdk.
Section WithHost.
Context {host : Host}.

(** *** Int *)

(** [sdk.Int] wraps a [big.Int]; its constructors panic beyond
    [maxBitLen] bits. *)
Definition maxBitLen : Z := 255.

Definition NewIntFromBigInt (i : Z) : result Z :=
  if maxBitLen <? BitLen i then Panic "NewIntFromBigInt() out of bound"
  else Ret i.

Definition Int_String (i : Z) : string :=
  NilZero.string_of_int (Z.to_int i).

(** *** Dec: fixed point, 18 decimal places *)

(** A [Dec] holds the integer [dec_i] and stands for [dec_i / 10^18]. *)
Record Dec : Type := mkDec { dec_i : Z }.

Definition Precision : Z := 18.
Definition DecimalPrecisionBits : Z := 60.
Definition precisionReuse : Z := 10 ^ Precision.
Definition fivePrecision : Z := precisionReuse / 2.

(** The rational a [Dec] stands for. *)
Definition Dec_value (d : Dec) : Q := Qmake (dec_i d) (Z.to_pos precisionReuse).

Definition NewDec (i : Z) : Dec := mkDec (i * precisionReuse).

Definition NewDecFromBigInt (i : Z) : Dec := mkDec (i * precisionReuse).

Definition Dec_IsZero (d : Dec) : bool := dec_i d =? 0.

(** [chopPrecisionAndRound] on a non-negative argument: divide by
    [10^18], round half to even. *)
Definition chopNonNegative (d : Z) : Z :=
  let quo := Z.quot d precisionReuse in
  let rem := Z.rem d precisionReuse in
  if rem =? 0 then quo
  else match rem ?= fivePrecision with
       | Lt => quo
       | Gt => quo + 1
       | Eq => if Z.even quo then quo else quo + 1
       end.

Definition chopPrecisionAndRound (d : Z) : Z :=
  if d <? 0 then - chopNonNegative (- d) else chopNonNegative d.

Definition Dec_Mul (d d2 : Dec) : result Dec :=
  let mul := dec_i d * dec_i d2 in
  let chopped := chopPrecisionAndRound mul in
  if maxBitLen + DecimalPrecisionBits <? BitLen chopped
  then Panic "Int overflow"
  else Ret (mkDec chopped).

Definition Dec_Ceil (d : Dec) : Dec :=
  let quo := Z.quot (dec_i d) precisionReuse in
  let rem := Z.rem (dec_i d) precisionReuse in
  if rem =? 0 then NewDecFromBigInt quo
  else if rem <? 0 then NewDecFromBigInt quo
  else NewDecFromBigInt (quo + 1).

Definition Dec_RoundInt (d : Dec) : result Z :=
  NewIntFromBigInt (chopPrecisionAndRound (dec_i d)).

(** *** Coin and Coins *)

Record Coin : Type := mkCoin { Denom : string; Amount : Z }.
Definition Coins : Type := list Coin.

(** [NewCoin] validates what it builds and panics otherwise; the
    messages here name the cause and leave the offending value out. *)
Definition NewCoin (denom : string) (amount : Z) : result Coin :=
  if negb (ValidateDenom denom) then Panic "invalid denom"
  else if amount <? 0 then Panic "negative coin amount"
  else Ret (mkCoin denom amount).

Definition Coin_IsZero (c : Coin) : bool := Amount c =? 0.
Definition Coin_IsPositive (c : Coin) : bool := 0 <? Amount c.

Definition Coin_String (c : Coin) : string :=
  (Int_String (Amount c) ++ Denom c)%string.

Fixpoint join_comma (xs : list string) : string :=
  match xs with
  | [] => ""
  | [x] => x
  | x :: xs' => (x ++ "," ++ join_comma xs')%string
  end.

Definition Coins_String (coins : Coins) : string :=
  join_comma (map Coin_String coins).

Definition Coins_IsZero (coins : Coins) : bool :=
  forallb Coin_IsZero coins.

(** [coins[:midIdx]] and [coins[midIdx+1:]]. *)
Definition midIdx (coins : Coins) : nat := Nat.div2 (List.length coins).

(** The binary search of [Coins.AmountOf], after its denomination check.
    [fuel] bounds the depth; [length coins] is always enough. *)
Fixpoint amountOf_search (fuel : nat) (coins : Coins) (denom : string) : Z :=
  match coins with
  | [] => 0
  | [coin] => if String.eqb (Denom coin) denom then Amount coin else 0
  | _ =>
      match fuel with
      | O => 0
      | S fuel' =>
          match nth_error coins (midIdx coins) with
          | None => 0
          | Some coin =>
              match String.compare denom (Denom coin) with
              | Lt => amountOf_search fuel' (firstn (midIdx coins) coins) denom
              | Eq => Amount coin
              | Gt => amountOf_search fuel' (skipn (S (midIdx coins)) coins) denom
              end
          end
      end
  end.

Definition AmountOf (coins : Coins) (denom : string) : result Z :=
  if negb (ValidateDenom denom) then Panic "invalid denom"
  else Ret (amountOf_search (List.length coins) coins denom).

(** The loop of [Coins.IsAnyGTE]: the first coin that qualifies ends it. *)
Fixpoint anyGTE_loop (coins coinsB : Coins) : result bool :=
  match coins with
  | [] => Ret false
  | coin :: rest =>
      (amt <- AmountOf coinsB (Denom coin) ;;
       if (amt <=? Amount coin) && negb (amt =? 0) then Ret true
       else anyGTE_loop rest coinsB)%go
  end.

Definition IsAnyGTE (coins coinsB : Coins) : result bool :=
  match coinsB with
  | [] => Ret false
  | _ => anyGTE_loop coins coinsB
  end.

(** The loop of [Coins.Validate] over [coins[1:]]: every denomination is
    well formed and above the previous one, every amount positive. *)
Fixpoint validate_rest (lowDenom : string) (coins : Coins) : bool :=
  match coins with
  | [] => true
  | coin :: rest =>
      ValidateDenom (Denom coin)
      && String.ltb lowDenom (Denom coin)
      && Coin_IsPositive coin
      && validate_rest (Denom coin) rest
  end.

Definition Coins_IsValid (coins : Coins) : bool :=
  match coins with
  | [] => true
  | coin :: rest =>
      ValidateDenom (Denom coin) && Coin_IsPositive coin
      && validate_rest (Denom coin) rest
  end.

(** *** DecCoin and DecCoins *)

Record DecCoin : Type := mkDecCoin { DecDenom : string; DecAmount : Dec }.
Definition DecCoins : Type := list DecCoin.

Definition DecCoins_Empty (coins : DecCoins) : bool :=
  match coins with [] => true | _ => false end.

Definition DecCoins_IsZero (coins : DecCoins) : bool :=
  forallb (fun coin => Dec_IsZero (DecAmount coin)) coins.

Definition DecCoin_String (c : DecCoin) : string :=
  (Dec_String (dec_i (DecAmount c)) ++ DecDenom c)%string.

Definition DecCoins_String (coins : DecCoins) : string :=
  join_comma (map DecCoin_String coins).

End WithHost.
End sdk.

(* ================================================================= *)
(** ** cosmos-sdk [types/errors] and the collaborators of the handlers *)

Module collab.
Section WithHost.
Context {host : Host}.
Import sdk.

(** The registered root errors the file wraps. *)
Inductive sdkerror : Type :=
| ErrTxDecode
| ErrInsufficientFunds
| ErrUnknownAddress
| ErrInsufficientFee.

Definition sdkerror_desc (e : sdkerror) : string :=
  match e with
  | ErrTxDecode => "tx parse error"
  | ErrInsufficientFunds => "insufficient funds"
  | ErrUnknownAddress => "unknown address"
  | ErrInsufficientFee => "insufficient fee"
  end.

(** A Go [error] value, kept with the format and the rendered arguments
    it was built from. *)
Inductive error : Type :=
| Errorf (format : string) (args : list string)          (* fmt.Errorf *)
| Wrap (root : sdkerror) (description : string)          (* sdkerrors.Wrap *)
| Wrapf (root : sdkerror) (format : string) (args : list string).

(** [err.Error()] *)
Definition Error (e : error) : string :=
  match e with
  | Errorf format args => Sprintf format args
  | Wrap root description => (description ++ ": " ++ sdkerror_desc root)%string
  | Wrapf root format args =>
      (Sprintf format args ++ ": " ++ sdkerror_desc root)%string
  end.


Definition AccAddress : Type := string.

(** [sdk.Context]: the execution mode and the block it runs in. The
    state it points to is the [Store] of the world. *)
Record Context : Type := mkContext {
  IsCheckTx : bool;
  BlockHeight : Z;
}.

Definition WithIsCheckTx (isCheckTx : bool) (ctx : Context) : Context :=
  mkContext isCheckTx (BlockHeight ctx).

(** [sdk.FeeTx] *)
Record FeeTx : Type := mkFeeTx {
  GetGas : Z;                (* uint64 *)
  GetFee : Coins;
  FeePayer : AccAddress;
}.

(** [sdk.Tx]: a transaction may or may not implement [FeeTx]. *)
Inductive Tx : Type :=
| TxWithFee (feeTx : FeeTx)
| TxWithoutFee (raw : string).

(** The type assertion [tx.(sdk.FeeTx)]. *)
Definition asFeeTx (tx : Tx) : option FeeTx :=
  match tx with
  | TxWithFee feeTx => Some feeTx
  | TxWithoutFee _ => None
  end.

(** [authtypes.AccountI], as far as the file looks at it. *)
Record AccountI : Type := mkAccount {
  GetAddress : AccAddress;
  GetAccountNumber : Z;
}.

(** The methods of the three collaborators below are taken to return:
    a keeper that panics on its own is outside this file.

    [baseapp.ParamStore]: [Get] decodes what is stored under [key] and
    stores it through the pointer it is given; [Get_decoded] is that
    decoded value. *)
Record ParamStore : Type := mkParamStore {
  Get_decoded : Context -> string -> Store -> DecCoins;
}.

(** [ante.AccountKeeper] *)
Record AccountKeeper : Type := mkAccountKeeper {
  GetModuleAddress : string -> option AccAddress;
  GetAccount : Context -> AccAddress -> Store -> option AccountI;
}.

(** [authtypes.BankKeeper]: the transfer yields the store it leaves
    behind and its error. *)
Record BankKeeper : Type := mkBankKeeper {
  SendCoinsFromAccountToModule :
    Context -> AccAddress -> string -> Coins -> Store -> Store * option error;
}.

Definition FeeCollectorName : string := "fee_collector".

(** *** The world and the calls made on it *)

Inductive Call : Type :=
| CallParamGet (key : string)
| CallGetModuleAddress (name : string)
| CallGetAccount (addr : AccAddress)
| CallSendCoinsFromAccountToModule
    (sender : AccAddress) (recipientModule : string) (amt : Coins).

(** The store and the collaborator calls made so far, oldest first. *)
Record World : Type := mkWorld {
  store : Store;
  calls : list Call;
}.

Inductive outcome (A : Type) : Type :=
| Done (a : A) (w : World)
| Panicked (msg : string) (w : World).
Arguments Done {A} a w.
Arguments Panicked {A} msg w.

Definition M (A : Type) : Type := World -> outcome A.

Definition ret {A} (a : A) : M A := fun w => Done a w.
Definition panic {A} (msg : string) : M A := fun w => Panicked msg w.

Definition bindM {A B} (m : M A) (k : A -> M B) : M B :=
  fun w =>
    match m w with
    | Done a w' => k a w'
    | Panicked msg w' => Panicked msg w'
    end.

Definition lift {A} (r : result A) : M A :=
  match r with
  | Ret a => ret a
  | Panic msg => panic msg
  end.

Definition log_call (c : Call) : M unit :=
  fun w => Done tt (mkWorld (store w) (calls w ++ [c])).

(** A method call on an interface value. *)
Definition invoke {T A} (x : interface T) (method : T -> M A) : M A :=
  match x with
  | None => panic nil_dereference
  | Some impl => method impl
  end.

(** [sdk.AnteHandler] *)
Definition AnteHandler : Type :=
  Context -> Tx -> bool -> M (Context * option error).

End WithHost.
Arguments Done {host A} a w.
Arguments Panicked {host A} msg w.
End collab.

Declare Scope world_scope.
Delimit Scope world_scope with world.
Notation "x <- m ;; k" := (collab.bindM m (fun x => k))
(at level 61, m at next level, right associativity) : world_scope.
Notation "m ;; k" := (collab.bindM m (fun _ => k))
(at level 61, right associativity) : world_scope.

(* ================================================================= *)
(** ** package app: feeParam.go *)

Module app.
Section WithHost.
Context {host : Host}.
Import sdk collab.

Definition ParamStoreKeyfee : string := "fee".
Definition ParamStoreKeyburn : string := "burn".
Definition FeeParamspace : string := "fee".

(** [BurnAmount] is an [sdk.Int] that holds a number, as every [Int] built
    by one of its constructors does. *)
Record FeeParams : Type := mkFeeParams {
  Fee : DecCoins;
  BurnAmount : Z;
}.

Definition NewFeeparam (fee : DecCoins) (burnAmount : Z) : FeeParams :=
  {| Fee := fee; BurnAmount := burnAmount |}.

(** The dynamic values an [interface{}] handed to [ValidateFee] may
    hold, with the name [%T] prints for each. *)
Inductive any : Type :=
| AnyFeeParams (v : FeeParams)
| AnyFeeParamsPtr (v : FeeParams)
| AnyDecCoins (v : DecCoins)
| AnyInt (v : Z)
| AnyString (v : string)
| AnyNil.

Definition typeName (i : any) : string :=
  match i with
  | AnyFeeParams _ => "app.FeeParams"
  | AnyFeeParamsPtr _ => "*app.FeeParams"
  | AnyDecCoins _ => "types.DecCoins"
  | AnyInt _ => "types.Int"
  | AnyString _ => "string"
  | AnyNil => "<nil>"
  end.

(** The type assertion [i.(FeeParams)]. *)
Definition asFeeParams (i : any) : option FeeParams :=
  match i with
  | AnyFeeParams v => Some v
  | _ => None
  end.

Definition ValidateFee (i : any) : option error :=
  match asFeeParams i with
  | None => Some (Errorf "invalid parameter type: %T" [typeName i])
  | Some v =>
      if DecCoins_Empty (Fee v)
      then Some (Errorf "fee must be positive: %s" [DecCoins_String (Fee v)])
      else if negb (0 <=? BurnAmount v)
      then Some (Errorf "burn amount must positive: %s " [Int_String (BurnAmount v)])
      else None
  end.

(** *** FeeParamDecorator *)

Record FeeParamDecorator : Type := mkFeeParamDecorator {
  mfd_ParamStore : interface ParamStore;
}.

Definition NewFeeParamDecorator (params : interface ParamStore)
  : FeeParamDecorator :=
  {| mfd_ParamStore := params |}.

(** [mfd.ParamStore.Get(ctx, key, ...)]: the value the store decodes for
    a [DecCoins] target. *)
Definition ParamStore_Get (ps : interface ParamStore) (ctx : Context)
    (key : string) : M DecCoins :=
  invoke ps (fun impl =>
    (log_call (CallParamGet key) ;;
     fun w => Done (Get_decoded impl ctx key (store w)) w)%world).

(** The loop of [AnteHandle] that fills [requiredFees]:
    [fee = ceil(minGasPrice * gasLimit)] for each minimum gas price. *)
Definition requiredFees (minGasPrices : DecCoins) (gas : Z) : result Coins :=
  let glDec := NewDec (int64_of_uint64 gas) in
  mapM (fun gp =>
          (fee <- Dec_Mul (DecAmount gp) glDec ;;
           amount <- Dec_RoundInt (Dec_Ceil fee) ;;
           NewCoin (DecDenom gp) amount)%go)
       minGasPrices.

(** The body of [AnteHandle] under [if ctx.IsCheckTx() && !simulate],
    from the test of [minGasPrices] on: [None] falls through to
    [return next(ctx, tx, simulate)], [Some err] is [return ctx, err]. *)
Definition checkMinGasPrices (minGasPrices : DecCoins) (feeCoins : Coins)
    (gas : Z) : result (option error) :=
  if negb (DecCoins_IsZero minGasPrices) then
    (required <- requiredFees minGasPrices gas ;;
     anyGTE <- IsAnyGTE feeCoins required ;;
     if negb anyGTE
     then Ret (Some (Wrapf ErrInsufficientFee
                       "insufficient fees; got: %s required: %s"
                       [Coins_String feeCoins; Coins_String required]))
     else Ret None)%go
  else Ret None.

(** [minGasPrices] as [AnteHandle] sees it after
    [mfd.ParamStore.Get(ctx, ParamStoreKeyfee, minGasPrices)]: declared
    with [var], handed over by value. *)
Definition minGasPrices_after_Get (mfd : FeeParamDecorator) (ctx : Context)
  : M DecCoins :=
  let minGasPrices : DecCoins := [] in
  (written <- ParamStore_Get (mfd_ParamStore mfd) ctx ParamStoreKeyfee ;;
   ret (after_call ByValue minGasPrices written))%world.

Definition FeeParamDecorator_AnteHandle (mfd : FeeParamDecorator)
    (ctx : Context) (tx : Tx) (simulate : bool) (next : AnteHandler)
  : M (Context * option error) :=
  match asFeeTx tx with
  | None => ret (ctx, Some (Wrap ErrTxDecode "Tx must be a FeeTx"))
  | Some feeTx =>
      let feeCoins := GetFee feeTx in
      let gas := GetGas feeTx in
      (err <- (if IsCheckTx ctx && negb simulate then
                 minGasPrices <- minGasPrices_after_Get mfd ctx ;;
                 lift (checkMinGasPrices minGasPrices feeCoins gas)
               else ret None) ;;
       match err with
       | Some e => ret (ctx, Some e)
       | None => next ctx tx simulate
       end)%world
  end.

(** *** DeductFeeDecorator *)

Record DeductFeeDecorator : Type := mkDeductFeeDecorator {
  ak : interface AccountKeeper;
  bankKeeper : interface BankKeeper;
  dfd_ParamStore : interface ParamStore;
}.

Definition NewDeductFeeDecorator (ak : interface AccountKeeper)
    (bk : interface BankKeeper) (params : interface ParamStore)
  : DeductFeeDecorator :=
  {| ak := ak; bankKeeper := bk; dfd_ParamStore := None |}.

(** [DeductFees] deducts fees from the given account. *)
Definition DeductFees (bankKeeper : interface BankKeeper) (ctx : Context)
    (acc : AccountI) (fees : Coins) : M (option error) :=
  if negb (Coins_IsValid fees) then
    ret (Some (Wrapf ErrInsufficientFee "invalid fee amount: %s"
                 [Coins_String fees]))
  else
    (err <- invoke bankKeeper (fun bk =>
              log_call (CallSendCoinsFromAccountToModule
                          (GetAddress acc) FeeCollectorName fees) ;;
              fun w =>
                let '(s, err) :=
                  SendCoinsFromAccountToModule bk ctx (GetAddress acc)
                    FeeCollectorName fees (store w) in
                Done err (mkWorld s (calls w))) ;;
     match err with
     | Some e => ret (Some (Wrapf ErrInsufficientFunds (Error e) []))
     | None => ret None
     end)%world.

Definition DeductFeeDecorator_AnteHandle (dfd : DeductFeeDecorator)
    (ctx : Context) (tx : Tx) (simulate : bool) (next : AnteHandler)
  : M (Context * option error) :=
  match asFeeTx tx with
  | None => ret (ctx, Some (Wrap ErrTxDecode "Tx must be a FeeTx"))
  | Some feeTx =>
      (addr <- invoke (ak dfd) (fun k =>
                 log_call (CallGetModuleAddress FeeCollectorName) ;;
                 ret (GetModuleAddress k FeeCollectorName)) ;;
       match addr with
       | None =>
           panic (Sprintf "%s module account has not been set"
                    [FeeCollectorName])
       | Some _ =>
           let feePayer := FeePayer feeTx in
           feePayerAcc <- invoke (ak dfd) (fun k =>
                            log_call (CallGetAccount feePayer) ;;
                            fun w => Done (GetAccount k ctx feePayer (store w)) w) ;;
           match feePayerAcc with
           | None =>
               ret (ctx, Some (Wrapf ErrUnknownAddress
                                 "fee payer address: %s does not exist"
                                 [AccAddress_String feePayer]))
           | Some acc =>
               err <- (if negb (Coins_IsZero (GetFee feeTx)) then
                         DeductFees (bankKeeper dfd) ctx acc (GetFee feeTx)
                       else ret None) ;;
               match err with
               | Some e => ret (ctx, Some e)
               | None => next ctx tx simulate
               end
           end
       end)%world
  end.

End WithHost.
End app.

(* ================================================================= *)
(** ** Reading the properties: what a run of a handler decides *)

Module reading.
Section WithHost.
Context {host : Host}.
Import sdk collab app.

(** How a handler ends: it returns its own error, hands over to [next],
    or panics. *)
Inductive decision : Type :=
| Reject (err : error)
| CallNext
| Crash (msg : string).

Definition conclude (ctx : Context) (tx : Tx) (simulate : bool)
    (next : AnteHandler) (d : decision) : M (Context * option error) :=
  match d with
  | Reject err => ret (ctx, Some err)
  | CallNext => next ctx tx simulate
  | Crash msg => panic msg
  end.

(** The world after one more collaborator call that left the store alone. *)
Definition called (c : Call) (w : World) : World :=
  mkWorld (store w) (calls w ++ [c]).


(** The world after a transfer that left the store [s]. *)
Definition transferred (acc : AccountI) (fees : Coins) (s : Store) (w : World)
  : World :=
  mkWorld s (calls w ++ [CallSendCoinsFromAccountToModule
                           (GetAddress acc) FeeCollectorName fees]).

Definition invalid_fee (fees : Coins) : error :=
  Wrapf ErrInsufficientFee "invalid fee amount: %s" [Coins_String fees].


(** A keeper that does not look at the execution mode of the context. *)
Definition mode_blind_ak (k : interface AccountKeeper) : Prop :=
  match k with
  | None => True
  | Some k =>
      forall ctx b addr s,
        GetAccount k (WithIsCheckTx b ctx) addr s = GetAccount k ctx addr s
  end.

Definition mode_blind_bk (k : interface BankKeeper) : Prop :=
  match k with
  | None => True
  | Some k =>
      forall ctx b sender recipient amt s,
        SendCoinsFromAccountToModule k (WithIsCheckTx b ctx) sender recipient amt s
        = SendCoinsFromAccountToModule k ctx sender recipient amt s
  end.

(** The order of denominations: Go compares strings byte by byte. *)
Definition denom_lt (a b : Coin) : Prop :=
  String_as_OT.lt (Denom a) (Denom b).

(** The amount [coins] holds in [denom], [0] when it holds none. *)
Fixpoint amount_in (coins : Coins) (denom : string) : Z :=
  match coins with
  | [] => 0
  | coin :: rest =>
      if String.eqb (Denom coin) denom then Amount coin
      else amount_in rest denom
  end.

(** The declared fee holds a denomination whose required amount is not
    zero and is covered by the declared amount. *)
Definition qualifies (feeCoins required : Coins) : Prop :=
  exists c r, In c feeCoins /\ In r required /\ Denom c = Denom r
              /\ Amount r <> 0 /\ Amount r <= Amount c.


(** The test [IsAnyGTE] makes on one declared coin. *)
Definition gte_nonzero (required : Coins) (coin : Coin) : bool :=
  let amt := amount_in required (Denom coin) in
  (amt <=? Amount coin) && negb (amt =? 0).

(** Minimum gas prices in strictly increasing order of denomination. *)
Definition dec_denom_lt (a b : DecCoin) : Prop :=
  String_as_OT.lt (DecDenom a) (DecDenom b).

Definition insufficient_fees (feeCoins required : Coins) : error :=
  Wrapf ErrInsufficientFee "insufficient fees; got: %s required: %s"
    [Coins_String feeCoins; Coins_String required].

(** The integer ceiling of [x / 10^18]. *)
Definition ceilP (x : Z) : Z := - ((- x) / precisionReuse).

(** [ceil(rate * gas)] as a rational computation. *)
Definition ceil_rate_gas (rate : Dec) (gas : Z) : Z :=
  Qceiling (Dec_value rate * inject_Z gas).

(** What a minimum gas price must satisfy for its required fee to be
    built: a denomination [NewCoin] accepts and a ceiling that is not
    negative and fits an [Int]. *)
Definition priceable (gas : Z) (gp : DecCoin) : Prop :=
  ValidateDenom (DecDenom gp) = true
  /\ 0 <= ceil_rate_gas (DecAmount gp) gas < 2 ^ maxBitLen.

(** A fee set as [Coins.IsValid] wants it: well-formed denominations in
    strictly increasing order, amounts above zero. *)
Definition well_formed (fees : Coins) : Prop :=
  Forall (fun c => ValidateDenom (Denom c) = true /\ 0 < Amount c) fees
  /\ Sorted denom_lt fees.

(** The same with amounts allowed to be zero. *)
Definition well_formed_nonneg (fees : Coins) : Prop :=
  Forall (fun c => ValidateDenom (Denom c) = true /\ 0 <= Amount c) fees
  /\ Sorted denom_lt fees.

End WithHost.
End reading.

(* ================================================================= *)
(** ** A small host to run the handlers on *)

Module demo.
Import sdk collab app.

Definition is_letter (c : ascii) : bool :=
  let n := nat_of_ascii c in
  ((65 <=? n) && (n <=? 90) || (97 <=? n) && (n <=? 122))%nat.

Definition is_digit (c : ascii) : bool :=
  let n := nat_of_ascii c in ((48 <=? n) && (n <=? 57))%nat.

Fixpoint all_chars (p : ascii -> bool) (s : string) : bool :=
  match s with
  | EmptyString => true
  | String c s' => p c && all_chars p s'
  end.

(** The denomination syntax [[a-zA-Z][a-zA-Z0-9/]{2,127}]. *)
Definition validDenom (s : string) : bool :=
  match s with
  | EmptyString => false
  | String c rest =>
      is_letter c
      && all_chars (fun x => is_letter x || is_digit x || Ascii.eqb x "/") rest
      && (2 <=? String.length rest)%nat && (String.length rest <=? 127)%nat
  end.

(** [Sprintf] for formats whose only verbs are [%s] and [%T]. *)
Fixpoint sprintf (format : string) (args : list string) : string :=
  match format with
  | String "%" (String v rest) =>
      if Ascii.eqb v "s" || Ascii.eqb v "T" then
        match args with
        | a :: args' => (a ++ sprintf rest args')%string
        | [] => ("%!" ++ String v "(MISSING)" ++ sprintf rest [])%string
        end
      else String "%" (String v (sprintf rest args))
  | String c rest => String c (sprintf rest args)
  | EmptyString => EmptyString
  end.

(** Balances of one denomination, by address. *)
Definition ledger : Type := list (string * Z).

Definition demoHost : Host := {|
  ValidateDenom := validDenom;
  Sprintf := sprintf;
  Dec_String := fun i => Int_String i;
  AccAddress_String := fun raw => ("cosmos1" ++ raw)%string;
  Store := ledger;
|}.

Fixpoint balance (l : ledger) (addr : string) : option Z :=
  match l with
  | [] => None
  | (a, b) :: rest => if String.eqb a addr then Some b else balance rest addr
  end.

Fixpoint debit (l : ledger) (addr : string) (amt : Z) : ledger :=
  match l with
  | [] => []
  | (a, b) :: rest =>
      if String.eqb a addr then (a, b - amt) :: rest
      else (a, b) :: debit rest addr amt
  end.

Definition total (amt : Coins) : Z :=
  fold_right (fun c acc => Amount c + acc) 0 amt.

Definition demoParams (configured : DecCoins) : ParamStore (host := demoHost) :=
  @mkParamStore demoHost (fun _ _ _ => configured).

(** An account keeper over the ledger; [collector] is the address of the
    fee collector module, if it has been set. *)
Definition demoAccounts (collector : option string)
  : AccountKeeper (host := demoHost) :=
  @mkAccountKeeper demoHost
    (fun name => if String.eqb name "fee_collector" then collector else None)
    (fun _ addr (l : ledger) =>
       match balance l addr with
       | Some _ => Some (mkAccount addr 0)
       | None => None
       end).

(** A bank that moves the total out of the sender's balance, or fails
    and leaves the ledger alone. *)
Definition demoBank : BankKeeper (host := demoHost) :=
  @mkBankKeeper demoHost
    (fun _ sender _ amt (l : ledger) =>
       match balance l sender with
       | Some b =>
           if total amt <=? b then (debit l sender (total amt), None)
           else (l, Some (Errorf "insufficient funds" []))
       | None => (l, Some (Errorf "unknown sender" []))
       end).

(** The last handler of a chain: it accepts. *)
Definition accept : AnteHandler (host := demoHost) :=
  fun ctx _ _ => ret (host := demoHost) (ctx, None).

Definition checkCtx : Context := mkContext true 7.
Definition deliverCtx : Context := mkContext false 7.

Definition world0 : World (host := demoHost) :=
  mkWorld (host := demoHost) [("alice"%string, 50)] [].

Definition stake (amount : Z) : Coin := mkCoin "stake" amount.

(** A minimum gas price of [0.1stake]. *)
Definition tenthStake : DecCoin := mkDecCoin "stake" (mkDec (10 ^ 17)).

Local Open Scope string_scope.

Definition atom (amount : Z) : Coin := mkCoin "atom" amount.


(** A minimum gas price of [1stake]. *)
Definition oneStake : DecCoin := mkDecCoin "stake" (mkDec (10 ^ 18)).

Definition aliceTx (gas : Z) (fee : Coins) : Tx :=
  TxWithFee (mkFeeTx gas fee "alice").


Definition alice : AccountI := mkAccount "alice" 0.

(** A deduction decorator over the ledger keepers. *)
Definition keepers (collector : option string)
  : DeductFeeDecorator (host := demoHost) :=
  @mkDeductFeeDecorator demoHost (Some (demoAccounts collector))
    (Some demoBank) None.

End demo.

(* ================================================================= *)
(** ** package app: the first revision of feeParam.go

    The earlier file has a parameter type with the fee set alone; its
    [FeeParamDecorator] is the one above, word for word. *)

Module app_v1.
Section WithHost.
Context {host : Host}.
Import sdk collab.

(** [type Fee struct { Fee sdk.DecCoins }]; the field is [FeeOf] here. *)
Record Fee : Type := mkFee { FeeOf : DecCoins }.

Definition NewFeeparam (fee : DecCoins) : Fee := mkFee fee.

(** The dynamic values an [interface{}] handed to [ValidateFee] may hold. *)
Inductive any : Type :=
| AnyFee (v : Fee)
| AnyFeePtr (v : Fee)
| AnyDecCoins (v : DecCoins)
| AnyString (v : string)
| AnyNil.

Definition typeName (i : any) : string :=
  match i with
  | AnyFee _ => "app.Fee"
  | AnyFeePtr _ => "*app.Fee"
  | AnyDecCoins _ => "types.DecCoins"
  | AnyString _ => "string"
  | AnyNil => "<nil>"
  end.

(** The type assertion [i.(Fee)]. *)
Definition asFee (i : any) : option Fee :=
  match i with
  | AnyFee v => Some v
  | _ => None
  end.

Definition ValidateFee (i : any) : option error :=
  match asFee i with
  | None => Some (Errorf "invalid parameter type: %T" [typeName i])
  | Some v =>
      if DecCoins_Empty (FeeOf v)
      then Some (Errorf "fee must be positive: %s" [DecCoins_String (FeeOf v)])
      else None
  end.

End WithHost.
End app_v1.

(* ================================================================= *)
(** ** Reading the handlers as a whole *)

Module whole.
Section WithHost.
Context {host : Host}.
Import sdk collab app reading.

(** The world after the two look-ups of the deduction handler. *)
Definition looked_up (feeTx : FeeTx) (w : World) : World :=
  mkWorld (store w)
    (calls w ++ [CallGetModuleAddress FeeCollectorName;
                 CallGetAccount (FeePayer feeTx)]).

(** A transfer of the declared fee to the fee collector. *)
Definition is_transfer (feeTx : FeeTx) (c : Call) : Prop :=
  exists sender,
    c = CallSendCoinsFromAccountToModule sender FeeCollectorName (GetFee feeTx).

(** The calls one run of the deduction handler may add, in order. *)
Definition deduct_calls (feeTx : FeeTx) (l : list Call) : Prop :=
  l = []
  \/ l = [CallGetModuleAddress FeeCollectorName]
  \/ l = [CallGetModuleAddress FeeCollectorName; CallGetAccount (FeePayer feeTx)]
  \/ exists c, is_transfer feeTx c
               /\ l = [CallGetModuleAddress FeeCollectorName;
                       CallGetAccount (FeePayer feeTx); c].


(** Every coin of [fee] has a coin of the same denomination in [fee'] that
    is at least as large. *)
Definition covered (fee fee' : Coins) : Prop :=
  forall c, In c fee ->
    exists c', In c' fee' /\ Denom c' = Denom c /\ Amount c <= Amount c'.

(** The required fees for the gas limit the loop works with. *)
Definition required_at (g : Z) (minGasPrices : DecCoins) : Coins :=
  map (fun gp => mkCoin (DecDenom gp) (ceil_rate_gas (DecAmount gp) g))
      minGasPrices.

(** The denominations of the minimum gas prices, each at amount zero. *)
Definition zero_coins (minGasPrices : DecCoins) : Coins :=
  map (fun gp => mkCoin (DecDenom gp) 0) minGasPrices.

(** The declared fee pays some minimum gas price in full: a denomination
    of the minimums whose required amount is above zero and at most the
    declared amount. *)
Definition pays_some (feeCoins : Coins) (minGasPrices : DecCoins) (gas : Z) : Prop :=
  exists c gp, In c feeCoins /\ In gp minGasPrices /\ Denom c = DecDenom gp
               /\ 0 < ceil_rate_gas (DecAmount gp) gas <= Amount c.

Definition valid_denoms (coins : Coins) : Prop :=
  Forall (fun c => ValidateDenom (Denom c) = true) coins.




Definition not_a_FeeTx : error := Wrap ErrTxDecode "Tx must be a FeeTx".

End WithHost.
End whole.

(* ================================================================= *)
(** ** Facts about the cosmos-sdk types *)

Module sdk_facts.
Section WithHost.
Context {host : Host}.
Import sdk collab app reading.

Lemma precisionReuse_pos : 0 < precisionReuse.
Proof. reflexivity. Qed.

Lemma precisionReuse_bits : precisionReuse < 2 ^ DecimalPrecisionBits.
Proof. reflexivity. Qed.

(** [BitLen x <= n] says [|x| < 2^n]. *)
Lemma BitLen_le (x n : Z) :
  0 <= n -> (n <? BitLen x) = false <-> Z.abs x < 2 ^ n.
Proof.
  intros Hn. unfold BitLen.
  destruct (Z.eqb_spec x 0) as [->|Hx].
  - rewrite Z.ltb_ge. simpl. split; intros _; [|assumption].
    apply Z.pow_pos_nonneg; lia.
  - rewrite Z.ltb_ge.
    assert (Hpos : 0 < Z.abs x) by lia.
    rewrite (Z.log2_lt_pow2 (Z.abs x) n Hpos). lia.
Qed.

Lemma chopNonNegative_mul (a : Z) :
  chopNonNegative (a * precisionReuse) = a.
Proof.
  unfold chopNonNegative.
  pose proof precisionReuse_pos as HP.
  rewrite Z.rem_mul by lia. rewrite Z.quot_mul by lia. reflexivity.
Qed.

(** Chopping a value with no fractional digits is exact, whatever the
    sign. *)
Lemma chopPrecisionAndRound_mul (a : Z) :
  chopPrecisionAndRound (a * precisionReuse) = a.
Proof.
  unfold chopPrecisionAndRound.
  pose proof precisionReuse_pos as HP.
  destruct (Z.ltb_spec (a * precisionReuse) 0).
  - rewrite <- Z.mul_opp_l, chopNonNegative_mul. lia.
  - apply chopNonNegative_mul.
Qed.

(** Multiplying by a whole number of gas units loses nothing. *)
Lemma Dec_Mul_NewDec (d : Dec) (g : Z) :
  Z.abs (dec_i d * g) < 2 ^ (maxBitLen + DecimalPrecisionBits) ->
  Dec_Mul d (NewDec g) = Ret (mkDec (dec_i d * g)).
Proof.
  intros Hb. unfold Dec_Mul, NewDec. cbn [dec_i].
  rewrite Z.mul_assoc, chopPrecisionAndRound_mul.
  apply BitLen_le in Hb; [|unfold maxBitLen, DecimalPrecisionBits; lia].
  rewrite Hb. reflexivity.
Qed.

Lemma Dec_Mul_NewDec_overflow (d : Dec) (g : Z) :
  2 ^ (maxBitLen + DecimalPrecisionBits) <= Z.abs (dec_i d * g) ->
  Dec_Mul d (NewDec g) = Panic "Int overflow".
Proof.
  intros Hb. unfold Dec_Mul, NewDec. cbn [dec_i].
  rewrite Z.mul_assoc, chopPrecisionAndRound_mul.
  destruct (maxBitLen + DecimalPrecisionBits <? BitLen (dec_i d * g)) eqn:E;
    [reflexivity|].
  apply BitLen_le in E; [lia|unfold maxBitLen, DecimalPrecisionBits; lia].
Qed.

Lemma Dec_Ceil_ceilP (x : Z) :
  Dec_Ceil (mkDec x) = NewDecFromBigInt (ceilP x).
Proof.
  unfold Dec_Ceil, ceilP. cbn [dec_i].
  pose proof precisionReuse_pos as HP.
  destruct (Z.le_gt_cases 0 x) as [Hx|Hx].
  - rewrite Z.rem_mod_nonneg, Z.quot_div_nonneg by lia.
    pose proof (Z.mod_pos_bound x precisionReuse HP) as Hm.
    pose proof (Z.div_mod x precisionReuse ltac:(lia)) as Hdm.
    destruct (Z.eqb_spec (x mod precisionReuse) 0) as [E|E].
    + f_equal.
      replace (- x) with ((- (x / precisionReuse)) * precisionReuse) by lia.
      rewrite Z.div_mul by lia. lia.
    + destruct (Z.ltb_spec (x mod precisionReuse) 0); [lia|].
      f_equal. symmetry.
      assert (Hq : - x / precisionReuse = - (x / precisionReuse) - 1).
      { symmetry. apply Z.div_unique with (r := precisionReuse - x mod precisionReuse);
          [left; lia | lia]. }
      lia.
  - assert (Hq : Z.quot x precisionReuse = - ((- x) / precisionReuse)).
    { rewrite <- (Z.opp_involutive x) at 1.
      rewrite Z.quot_opp_l by lia.
      rewrite Z.quot_div_nonneg by lia. reflexivity. }
    rewrite Hq.
    assert (Hr : Z.rem x precisionReuse <= 0).
    { apply Z.rem_nonpos; lia. }
    destruct (Z.eqb_spec (Z.rem x precisionReuse) 0); [reflexivity|].
    destruct (Z.ltb_spec (Z.rem x precisionReuse) 0); [reflexivity|lia].
Qed.

Lemma Dec_RoundInt_whole (c : Z) :
  Dec_RoundInt (NewDecFromBigInt c) = NewIntFromBigInt c.
Proof.
  unfold Dec_RoundInt, NewDecFromBigInt. cbn [dec_i].
  now rewrite chopPrecisionAndRound_mul.
Qed.

(** The ceiling the handler computes is the ceiling of the rational
    product. *)
Lemma ceil_rate_gas_ceilP (rate : Dec) (gas : Z) :
  ceil_rate_gas rate gas = ceilP (dec_i rate * gas).
Proof.
  unfold ceil_rate_gas, ceilP, Qceiling, Qfloor, Dec_value.
  cbn [Qmult Qopp inject_Z Qnum Qden].
  rewrite Pos.mul_1_r, Z2Pos.id by apply precisionReuse_pos.
  reflexivity.
Qed.

Lemma ceilP_bounds (x : Z) :
  (ceilP x - 1) * precisionReuse < x <= ceilP x * precisionReuse.
Proof.
  unfold ceilP. pose proof precisionReuse_pos as HP.
  pose proof (Z.div_mod (- x) precisionReuse ltac:(lia)) as Hdm.
  pose proof (Z.mod_pos_bound (- x) precisionReuse HP) as Hm.
  nia.
Qed.

Lemma int64_of_uint64_small (gas : Z) :
  0 <= gas < 2 ^ 63 -> int64_of_uint64 gas = gas.
Proof.
  intros Hg. unfold int64_of_uint64.
  rewrite Z.mod_small by lia.
  destruct (Z.ltb_spec gas (2 ^ 63)); lia.
Qed.

Lemma int64_of_uint64_large (gas : Z) :
  2 ^ 63 <= gas < 2 ^ 64 -> int64_of_uint64 gas = gas - 2 ^ 64.
Proof.
  intros Hg. unfold int64_of_uint64.
  rewrite Z.mod_small by lia.
  destruct (Z.ltb_spec gas (2 ^ 63)); lia.
Qed.

(** A product whose ceiling fits an [Int] and is not negative fits a
    [Dec]. *)
Lemma product_fits (x : Z) :
  0 <= ceilP x < 2 ^ maxBitLen ->
  Z.abs x < 2 ^ (maxBitLen + DecimalPrecisionBits).
Proof.
  intros Hc. pose proof (ceilP_bounds x) as Hb.
  pose proof precisionReuse_pos as HP.
  pose proof precisionReuse_bits as HB.
  rewrite Z.pow_add_r by (unfold maxBitLen, DecimalPrecisionBits; lia).
  assert (H2 : 0 < 2 ^ maxBitLen) by (apply Z.pow_pos_nonneg; unfold maxBitLen; lia).
  assert (Hup : x < 2 ^ maxBitLen * 2 ^ DecimalPrecisionBits) by nia.
  assert (Hlo : - (2 ^ maxBitLen * 2 ^ DecimalPrecisionBits) < x) by nia.
  lia.
Qed.

(** One turn of the loop of [requiredFees] on a well-behaved entry. *)
Lemma required_entry (gp : DecCoin) (g : Z) :
  ValidateDenom (DecDenom gp) = true ->
  0 <= ceilP (dec_i (DecAmount gp) * g) < 2 ^ maxBitLen ->
  (fee <- Dec_Mul (DecAmount gp) (NewDec g) ;;
   amount <- Dec_RoundInt (Dec_Ceil fee) ;;
   NewCoin (DecDenom gp) amount)%go
  = Ret (mkCoin (DecDenom gp) (ceilP (dec_i (DecAmount gp) * g))).
Proof.
  intros Hd Hc.
  rewrite Dec_Mul_NewDec by (apply product_fits; assumption).
  cbn [Go.bind].
  rewrite Dec_Ceil_ceilP, Dec_RoundInt_whole.
  unfold NewIntFromBigInt.
  assert (Hb : (maxBitLen <? BitLen (ceilP (dec_i (DecAmount gp) * g))) = false).
  { apply BitLen_le; [unfold maxBitLen; lia | lia]. }
  rewrite Hb. cbn [Go.bind]. unfold NewCoin. rewrite Hd. cbn [negb].
  destruct (Z.ltb_spec (ceilP (dec_i (DecAmount gp) * g)) 0); [lia|reflexivity].
Qed.

(** *** The binary search of [AmountOf] on sorted coins *)

Lemma denom_lt_trans (a b c : Coin) :
  denom_lt a b -> denom_lt b c -> denom_lt a c.
Proof. unfold denom_lt. apply String_as_OT.lt_trans. Qed.

Lemma denom_lt_neq (a b : Coin) : denom_lt a b -> Denom a <> Denom b.
Proof. unfold denom_lt. apply String_as_OT.lt_not_eq. Qed.

Lemma Sorted_denom_strong (coins : Coins) :
  Sorted denom_lt coins -> StronglySorted denom_lt coins.
Proof.
  apply Sorted_StronglySorted. intros a b c. apply denom_lt_trans.
Qed.

Lemma StronglySorted_split (R : Coin -> Coin -> Prop) (l1 l2 : Coins) (x : Coin) :
  StronglySorted R (l1 ++ x :: l2) ->
  StronglySorted R l1 /\ StronglySorted R l2
  /\ Forall (fun a => R a x) l1 /\ Forall (R x) l2.
Proof.
  induction l1 as [|a l1 IH]; cbn [app]; intros H.
  - apply StronglySorted_inv in H as [H2 Hx]. repeat split; auto; constructor.
  - apply StronglySorted_inv in H as [Hs Ha].
    destruct (IH Hs) as (S1 & S2 & F1 & F2).
    repeat split; auto.
    + constructor; [assumption|].
      apply Forall_app in Ha. tauto.
    + constructor; [|assumption].
      apply Forall_app in Ha as [_ Ha]. now inversion Ha.
Qed.

Lemma nth_error_cut (coins : Coins) (n : nat) (coin : Coin) :
  nth_error coins n = Some coin ->
  coins = firstn n coins ++ coin :: skipn (S n) coins.
Proof.
  revert n. induction coins as [|c coins IH]; intros [|n] H;
    try discriminate.
  - cbn in H. now inversion H.
  - cbn in H. cbn [firstn skipn app]. f_equal. now apply IH.
Qed.

Lemma amount_in_app_skip (l1 l2 : Coins) (denom : string) :
  Forall (fun c => Denom c <> denom) l1 ->
  amount_in (l1 ++ l2) denom = amount_in l2 denom.
Proof.
  induction 1 as [|c l1 Hc _ IH]; [reflexivity|].
  cbn [app amount_in].
  destruct (String.eqb_spec (Denom c) denom); [contradiction|assumption].
Qed.

Lemma amount_in_app_stop (l1 l2 : Coins) (denom : string) :
  Forall (fun c => Denom c <> denom) l2 ->
  amount_in (l1 ++ l2) denom = amount_in l1 denom.
Proof.
  intros H2. induction l1 as [|c l1 IH]; cbn [app amount_in].
  - induction H2 as [|c l2 Hc _ IH]; [reflexivity|].
    cbn [amount_in].
    destruct (String.eqb_spec (Denom c) denom); [contradiction|assumption].
  - now rewrite IH.
Qed.

Lemma midIdx_lt (coins : Coins) :
  coins <> [] -> (midIdx coins < List.length coins)%nat.
Proof.
  intros H. unfold midIdx. apply Nat.lt_div2.
  destruct coins; [contradiction|cbn; lia].
Qed.

(** On coins in strictly increasing order of denomination the search
    finds the amount of the denomination, or [0] when it is absent. *)
Lemma amountOf_search_sorted (fuel : nat) :
  forall (coins : Coins) (denom : string),
    StronglySorted denom_lt coins ->
    (List.length coins <= fuel)%nat ->
    amountOf_search fuel coins denom = amount_in coins denom.
Proof.
  induction fuel as [|fuel IH]; intros coins denom Hs Hlen.
  - destruct coins as [|c [|c' rest]]; cbn in Hlen; try lia. reflexivity.
  - destruct coins as [|c [|c' rest]].
    + reflexivity.
    + cbn. destruct (String.eqb (Denom c) denom); reflexivity.
    + remember (c :: c' :: rest) as coins eqn:Ecoins.
      assert (Hne : coins <> []) by (subst; discriminate).
      pose proof (midIdx_lt Hne) as Hmid.
      assert (Hunfold :
        amountOf_search (S fuel) coins denom =
        match nth_error coins (midIdx coins) with
        | None => 0
        | Some coin =>
            match String.compare denom (Denom coin) with
            | Lt => amountOf_search fuel (firstn (midIdx coins) coins) denom
            | Eq => Amount coin
            | Gt => amountOf_search fuel (skipn (S (midIdx coins)) coins) denom
            end
        end) by (subst coins; reflexivity).
      rewrite Hunfold. clear Hunfold Ecoins.
      destruct (nth_error coins (midIdx coins)) as [coin|] eqn:Enth;
        [|apply nth_error_None in Enth; lia].
      pose proof (nth_error_cut _ _ Enth) as Hcut.
      set (l1 := firstn (midIdx coins) coins) in *.
      set (l2 := skipn (S (midIdx coins)) coins) in *.
      assert (Hl1 : (List.length l1 <= fuel)%nat).
      { subst l1. rewrite length_firstn. lia. }
      assert (Hl2 : (List.length l2 <= fuel)%nat).
      { subst l2. rewrite length_skipn. lia. }
      rewrite Hcut in Hs.
      apply StronglySorted_split in Hs as (S1 & S2 & F1 & F2).
      replace (amount_in coins denom)
        with (amount_in (l1 ++ coin :: l2) denom) by (now rewrite <- Hcut).
      destruct (String.compare denom (Denom coin)) eqn:Ecmp.
      * apply String_as_OT.cmp_eq in Ecmp. subst denom.
        rewrite amount_in_app_skip.
        -- cbn [amount_in]. now rewrite String.eqb_refl.
        -- eapply Forall_impl; [|exact F1]. intros a Ha. now apply denom_lt_neq.
      * apply String_as_OT.cmp_lt in Ecmp.
        rewrite IH by assumption.
        symmetry. apply amount_in_app_stop.
        constructor.
        -- intros E. apply (String_as_OT.lt_not_eq _ _ Ecmp). now symmetry.
        -- eapply Forall_impl; [|exact F2]. intros a Ha E.
           apply (String_as_OT.lt_not_eq denom (Denom a)); [|now symmetry].
           eapply String_as_OT.lt_trans; [exact Ecmp|exact Ha].
      * assert (Hgt : String_as_OT.lt (Denom coin) denom).
        { apply String_as_OT.cmp_lt.
          change (String_as_OT.cmp (Denom coin) denom = Lt).
          rewrite String_as_OT.cmp_antisym.
          change (String_as_OT.cmp denom (Denom coin)) with
            (String.compare denom (Denom coin)).
          now rewrite Ecmp. }
        rewrite IH by assumption.
        rewrite amount_in_app_skip.
        -- cbn [amount_in].
           destruct (String.eqb_spec (Denom coin) denom) as [E|_];
             [|reflexivity].
           exfalso. exact (String_as_OT.lt_not_eq _ _ Hgt E).
        -- eapply Forall_impl; [|exact F1]. intros a Ha E.
           apply (String_as_OT.lt_not_eq (Denom a) denom); [|exact E].
           eapply String_as_OT.lt_trans; [exact Ha|exact Hgt].
Qed.

(** *** [IsAnyGTE] *)

Lemma amount_in_found (coins : Coins) (denom : string) :
  amount_in coins denom <> 0 ->
  exists r, In r coins /\ Denom r = denom /\ Amount r = amount_in coins denom.
Proof.
  induction coins as [|c coins IH]; cbn [amount_in]; [congruence|].
  destruct (String.eqb_spec (Denom c) denom) as [E|E]; intros H.
  - exists c. cbn. auto.
  - destruct (IH H) as (r & Hin & Hr). exists r. cbn. tauto.
Qed.

Lemma amount_in_member (coins : Coins) (r : Coin) :
  StronglySorted denom_lt coins -> In r coins ->
  amount_in coins (Denom r) = Amount r.
Proof.
  induction 1 as [|c coins Hs IH Hall]; intros Hin; [contradiction|].
  cbn [amount_in]. destruct Hin as [->|Hin].
  - now rewrite String.eqb_refl.
  - destruct (String.eqb_spec (Denom c) (Denom r)) as [E|_]; [|auto].
    rewrite Forall_forall in Hall.
    exfalso. exact (denom_lt_neq (Hall r Hin) E).
Qed.

Lemma anyGTE_loop_sorted (coins coinsB : Coins) :
  Forall (fun c => ValidateDenom (Denom c) = true) coins ->
  StronglySorted denom_lt coinsB ->
  anyGTE_loop coins coinsB = Ret (existsb (gte_nonzero coinsB) coins).
Proof.
  intros Hv Hs. induction Hv as [|c coins Hc _ IH]; [reflexivity|].
  cbn [anyGTE_loop existsb]. unfold AmountOf. rewrite Hc. cbn [negb Go.bind].
  rewrite amountOf_search_sorted by (auto; lia).
  fold (gte_nonzero coinsB c).
  destruct (gte_nonzero coinsB c); [reflexivity|exact IH].
Qed.

Lemma IsAnyGTE_sorted (coins coinsB : Coins) :
  Forall (fun c => ValidateDenom (Denom c) = true) coins ->
  StronglySorted denom_lt coinsB ->
  IsAnyGTE coins coinsB = Ret (existsb (gte_nonzero coinsB) coins).
Proof.
  intros Hv Hs. unfold IsAnyGTE. destruct coinsB as [|b coinsB].
  - f_equal. symmetry. clear. induction coins as [|c coins IH]; [reflexivity|].
    cbn [existsb]. rewrite IH. unfold gte_nonzero. cbn [amount_in].
    now rewrite andb_false_r.
  - now apply anyGTE_loop_sorted.
Qed.

Lemma existsb_gte_nonzero (coins coinsB : Coins) :
  StronglySorted denom_lt coinsB ->
  existsb (gte_nonzero coinsB) coins = true <-> qualifies coins coinsB.
Proof.
  intros Hs. rewrite existsb_exists. unfold qualifies, gte_nonzero. split.
  - intros (c & Hin & Hc).
    apply andb_true_iff in Hc as [Hle Hnz].
    apply Z.leb_le in Hle. apply negb_true_iff, Z.eqb_neq in Hnz.
    destruct (amount_in_found _ _ Hnz) as (r & Hr & Hd & Ha).
    exists c, r. repeat split; auto; lia.
  - intros (c & r & Hc & Hr & Hd & Hnz & Hle).
    exists c. split; [assumption|].
    rewrite Hd. rewrite amount_in_member by assumption.
    apply andb_true_iff. split; [now apply Z.leb_le|].
    now apply negb_true_iff, Z.eqb_neq.
Qed.


Lemma Sorted_by_denoms (xs : DecCoins) (ys : Coins) :
  map Denom ys = map DecDenom xs ->
  StronglySorted dec_denom_lt xs -> StronglySorted denom_lt ys.
Proof.
  intros Hmap Hs. revert ys Hmap.
  induction Hs as [|x xs Hs IH Hall]; intros [|y ys] Hmap;
    try discriminate; [constructor|].
  cbn [map] in Hmap. inversion Hmap as [[Hy Hys]].
  constructor; [now apply IH|].
  rewrite Forall_forall in *. intros b Hb.
  apply (in_map Denom) in Hb. rewrite Hys in Hb.
  apply in_map_iff in Hb as (a & Ha & Hina).
  unfold denom_lt. rewrite Hy, <- Ha. exact (Hall a Hina).
Qed.

End WithHost.
End sdk_facts.

(* ================================================================= *)
(** ** Properties of the handlers *)

Section RequiredFees.
Context {host : Host}.
Import sdk collab app reading sdk_facts.

(** C2 (amended). For a gas limit below [2^63] and minimum gas prices
    each with a denomination [NewCoin] accepts and a ceiling
    [ceil(rate * gas)] in [[0, 2^255)], the loop of [AnteHandle] returns
    the coins [(denomination, ceil(rate * gas))], one per minimum gas
    price, in order; the product is exact and the rounding is upwards. *)
Theorem requiredFees_ceil (minGasPrices : DecCoins) (gas : Z) :
  0 <= gas < 2 ^ 63 ->
  Forall (priceable gas) minGasPrices ->
  requiredFees minGasPrices gas
  = Ret (map (fun gp => mkCoin (DecDenom gp) (ceil_rate_gas (DecAmount gp) gas))
             minGasPrices).
Proof.
  intros Hg Hall. unfold requiredFees.
  rewrite int64_of_uint64_small by assumption.
  induction Hall as [|gp rest [Hd Hc] _ IH]; [reflexivity|].
  cbn [mapM map].
  rewrite ceil_rate_gas_ceilP in Hc.
  rewrite required_entry by assumption.
  cbn [Go.bind]. rewrite IH. cbn [Go.bind].
  now rewrite ceil_rate_gas_ceilP.
Qed.

End RequiredFees.

Section MinFeeCheck.
Context {host : Host}.
Import sdk collab app reading sdk_facts.


End MinFeeCheck.

Section FeeParamDecoratorProperties.
Context {host : Host}.
Import sdk collab app reading sdk_facts.




(** C3. For a [FeeTx], outside [CheckTx] or under simulation the
    handler validates nothing: it is [next] on the same context,
    transaction and flag, in the same world, whatever the fee. *)
Theorem FeeParamDecorator_passthrough (mfd : FeeParamDecorator) (ctx : Context)
    (feeTx : FeeTx) (simulate : bool) (next : AnteHandler) (w : World) :
  IsCheckTx ctx = false \/ simulate = true ->
  FeeParamDecorator_AnteHandle mfd ctx (TxWithFee feeTx) simulate next w
  = next ctx (TxWithFee feeTx) simulate w.
Proof.
  intros H. unfold FeeParamDecorator_AnteHandle. cbn [asFeeTx].
  assert (E : IsCheckTx ctx && negb simulate = false).
  { destruct H as [-> | ->]; [reflexivity|apply andb_false_r]. }
  rewrite E. reflexivity.
Qed.



End FeeParamDecoratorProperties.

Section DeductFeeProperties.
Context {host : Host}.
Import sdk collab app reading sdk_facts.

Lemma ltb_lt (a b : string) :
  String.ltb a b = true <-> String_as_OT.lt a b.
Proof.
  rewrite <- String_as_OT.cmp_lt. unfold String.ltb, String_as_OT.cmp.
  destruct (String.compare a b); split; congruence.
Qed.

Lemma HdRel_same_denom (a b : Coin) (coins : Coins) :
  Denom a = Denom b -> HdRel denom_lt a coins -> HdRel denom_lt b coins.
Proof.
  intros E H. destruct H; constructor. unfold denom_lt in *. now rewrite <- E.
Qed.

Lemma validate_rest_spec (coins : Coins) :
  forall low,
    validate_rest low coins = true
    <-> Forall (fun c => ValidateDenom (Denom c) = true /\ 0 < Amount c) coins
        /\ Sorted denom_lt coins
        /\ HdRel denom_lt (mkCoin low 0) coins.
Proof.
  induction coins as [|c coins IH]; intros low; cbn [validate_rest].
  - split; [intros _; repeat constructor|reflexivity].
  - rewrite !andb_true_iff, IH, ltb_lt. unfold Coin_IsPositive.
    rewrite Z.ltb_lt. split.
    + intros (((Hv & Hlt) & Hp) & HF & HS & HH).
      split; [constructor; auto|].
      split; [|constructor; exact Hlt].
      constructor; [assumption|].
      now apply HdRel_same_denom with (a := mkCoin (Denom c) 0).
    + intros (HF & HS & HH).
      apply Forall_cons_iff in HF as [[Hv Hp] HF].
      apply Sorted_inv in HS as [HS HH'].
      apply HdRel_inv in HH.
      repeat split; auto.
      now apply HdRel_same_denom with (a := c).
Qed.

(** [Coins.IsValid] accepts exactly the well-formed fee sets. *)
Lemma Coins_IsValid_spec (fees : Coins) :
  Coins_IsValid fees = true <-> well_formed fees.
Proof.
  unfold well_formed. destruct fees as [|c rest]; cbn [Coins_IsValid].
  - split; [intros _; split; constructor|reflexivity].
  - rewrite !andb_true_iff, validate_rest_spec. unfold Coin_IsPositive.
    rewrite Z.ltb_lt. split.
    + intros ((Hv & Hp) & HF & HS & HH).
      split; constructor; auto.
      now apply HdRel_same_denom with (a := mkCoin (Denom c) 0).
    + intros (HF & HS).
      apply Forall_cons_iff in HF as [[Hv Hp] HF].
      apply Sorted_inv in HS as [HS HH].
      repeat split; auto.
      now apply HdRel_same_denom with (a := c).
Qed.

(** C5 (amended). [DeductFees] ends in one of three ways. A fee set
    that is not well formed, that is, with a denomination
    [ValidateDenom] refuses, denominations not in strictly increasing
    order, or an amount that is not strictly positive, gives the
    InvalidFee error of root InsufficientFee and the world is as it
    was: no transfer was asked for. On a well-formed fee set the
    transfer is asked for once; if it fails, its message comes back
    wrapped in InsufficientFunds; if it succeeds, the result is nil. *)
Theorem DeductFees_outcome (bk : BankKeeper) (ctx : Context) (acc : AccountI)
    (fees : Coins) (w : World) :
  (~ well_formed fees
   /\ DeductFees (Some bk) ctx acc fees w = Done (Some (invalid_fee fees)) w)
  \/ (well_formed fees
      /\ exists s,
          (SendCoinsFromAccountToModule bk ctx (GetAddress acc)
             FeeCollectorName fees (store w) = (s, None)
           /\ DeductFees (Some bk) ctx acc fees w
              = Done None (transferred acc fees s w))
          \/ (exists e,
                SendCoinsFromAccountToModule bk ctx (GetAddress acc)
                  FeeCollectorName fees (store w) = (s, Some e)
                /\ DeductFees (Some bk) ctx acc fees w
                   = Done (Some (Wrapf ErrInsufficientFunds (Error e) []))
                       (transferred acc fees s w))).
Proof.
  unfold DeductFees.
  destruct (Coins_IsValid fees) eqn:Ev; cbn [negb].
  - right. split; [now apply Coins_IsValid_spec|].
    unfold bindM, invoke, log_call, ret, transferred. cbn [store calls].
    destruct (SendCoinsFromAccountToModule bk ctx (GetAddress acc)
                FeeCollectorName fees (store w)) as [s [e|]].
    + exists s. right. exists e. split; reflexivity.
    + exists s. left. split; reflexivity.
  - left. split; [|reflexivity].
    intros Hwf. apply Coins_IsValid_spec in Hwf. congruence.
Qed.

(** Before it looks the payer up, the handler asks for the address of
    the fee collector module and panics if there is none. *)
Lemma DeductFee_collector_unset (k : AccountKeeper) (bk : interface BankKeeper)
    (ps : interface ParamStore) (ctx : Context) (feeTx : FeeTx)
    (simulate : bool) (next : AnteHandler) (w : World) :
  GetModuleAddress k FeeCollectorName = None ->
  DeductFeeDecorator_AnteHandle (mkDeductFeeDecorator (Some k) bk ps) ctx
    (TxWithFee feeTx) simulate next w
  = Panicked (Sprintf "%s module account has not been set" [FeeCollectorName])
      (called (CallGetModuleAddress FeeCollectorName) w).
Proof.
  intros H. unfold DeductFeeDecorator_AnteHandle. cbn [asFeeTx ak].
  unfold bindM, invoke, log_call, ret, panic, called. cbn [store calls].
  now rewrite H.
Qed.


(** C9. Two runs of the handler from the same world, on contexts that
    differ at most in the CheckTx mode and with any two simulate flags,
    end the same way: the same decision (the same error, the hand-over
    to [next], or the same panic) in the same world, that is, with the
    same collector look-up, payer look-up and transfer made and the
    same store left; the mode and the flag only travel on to [next].
    The keepers are taken not to read the mode themselves. *)
Theorem DeductFee_mode_independent (dfd : DeductFeeDecorator) (ctx : Context)
    (tx : Tx) (b simulate1 simulate2 : bool) (w : World) :
  mode_blind_ak (ak dfd) ->
  mode_blind_bk (bankKeeper dfd) ->
  exists d w',
    forall next,
      DeductFeeDecorator_AnteHandle dfd ctx tx simulate1 next w
      = conclude ctx tx simulate1 next d w'
      /\ DeductFeeDecorator_AnteHandle dfd (WithIsCheckTx b ctx) tx simulate2 next w
         = conclude (WithIsCheckTx b ctx) tx simulate2 next d w'.
Proof.
  intros Hak Hbk.
  destruct tx as [feeTx|raw].
  2:{ exists (Reject (Wrap ErrTxDecode "Tx must be a FeeTx")), w.
      intros next; split; reflexivity. }
  destruct dfd as [[k|] bko ps]; cbn [mode_blind_ak mode_blind_bk ak bankKeeper] in *.
  2:{ exists (Crash nil_dereference), w. intros next; split; reflexivity. }
  unfold DeductFeeDecorator_AnteHandle; cbn [asFeeTx ak bankKeeper].
  unfold bindM, invoke, log_call, ret, panic; cbn [store calls].
  destruct (GetModuleAddress k FeeCollectorName) as [collector|].
  2:{ eexists (Crash _), _. intros next; split; reflexivity. }
  cbn [store calls]. rewrite Hak.
  destruct (GetAccount k ctx (FeePayer feeTx) (store w)) as [acc|].
  2:{ eexists (Reject _), _. intros next; split; reflexivity. }
  destruct (Coins_IsZero (GetFee feeTx)); cbn [negb].
  { exists CallNext. eexists. intros next; split; reflexivity. }
  unfold DeductFees.
  destruct (Coins_IsValid (GetFee feeTx)); cbn [negb].
  2:{ eexists (Reject _), _. intros next; split; reflexivity. }
  destruct bko as [bk|]; cbn [mode_blind_bk] in Hbk.
  2:{ eexists (Crash _), _. intros next; split; reflexivity. }
  unfold bindM, invoke, log_call, ret, panic; cbn [store calls].
  rewrite Hbk.
  destruct (SendCoinsFromAccountToModule bk ctx (GetAddress acc)
              FeeCollectorName (GetFee feeTx) (store w)) as [s [e|]].
  - eexists (Reject _), _. intros next; split; reflexivity.
  - exists CallNext. eexists. intros next; split; reflexivity.
Qed.

(** C10. The decorator [NewDeductFeeDecorator] builds carries the two
    keepers it was given and a nil parameter store, whatever [params]
    was. *)
Theorem NewDeductFeeDecorator_ignores_params (k : interface AccountKeeper)
    (bk : interface BankKeeper) (params : interface ParamStore) :
  dfd_ParamStore (NewDeductFeeDecorator k bk params) = None
  /\ ak (NewDeductFeeDecorator k bk params) = k
  /\ bankKeeper (NewDeductFeeDecorator k bk params) = bk.
Proof. repeat split. Qed.

End DeductFeeProperties.

Section ValidateFeeProperties.
Context {host : Host}.
Import sdk collab app reading.


End ValidateFeeProperties.

(* ================================================================= *)
(** ** The handlers on concrete inputs *)

Section Examples.
Import sdk collab app reading demo.
#[local] Existing Instance demoHost.
Local Open Scope string_scope.

(** *** The check on its own, at a minimum of [0.1stake] and gas 100 *)

Example required_at_100 :
  requiredFees [tenthStake] 100 = Ret [stake 10].
Proof. reflexivity. Qed.

Example required_rounds_up :
  requiredFees [tenthStake] 101 = Ret [stake 11].
Proof. reflexivity. Qed.

Example declared_9_rejected :
  checkMinGasPrices [tenthStake] [stake 9] 100
  = Ret (Some (insufficient_fees [stake 9] [stake 10])).
Proof. reflexivity. Qed.

Example declared_10_accepted :
  checkMinGasPrices [tenthStake] [stake 10] 100 = Ret None.
Proof. reflexivity. Qed.

Example declared_11_accepted :
  checkMinGasPrices [tenthStake] [stake 11] 100 = Ret None.
Proof. reflexivity. Qed.

Example insufficient_fees_message :
  Error (insufficient_fees [stake 9] [stake 10])
  = "insufficient fees; got: 9stake required: 10stake: insufficient fee".
Proof. reflexivity. Qed.

(** *** The handler: the configured minimum never reaches the check *)

Example underpaid_tx_reaches_next :
  FeeParamDecorator_AnteHandle
    (NewFeeParamDecorator (Some (demoParams [tenthStake])))
    checkCtx (aliceTx 100 [stake 9]) false accept world0
  = Done (checkCtx, None) (called (CallParamGet "fee") world0).
Proof. reflexivity. Qed.

(** *** Deduction runs in every mode *)

Example deducted_under_CheckTx_and_simulate :
  DeductFeeDecorator_AnteHandle (keepers (Some "collector"))
    checkCtx (aliceTx 100 [stake 9]) true accept world0
  = Done (checkCtx, None)
      (mkWorld [("alice", 41)]
         [CallGetModuleAddress "fee_collector"; CallGetAccount "alice";
          CallSendCoinsFromAccountToModule "alice" "fee_collector" [stake 9]]).
Proof. reflexivity. Qed.

Example overdrawn_payer :
  DeductFeeDecorator_AnteHandle (keepers (Some "collector"))
    deliverCtx (aliceTx 100 [stake 90]) false accept world0
  = Done (deliverCtx, Some (Wrapf ErrInsufficientFunds "insufficient funds" []))
      (mkWorld [("alice", 50)]
         [CallGetModuleAddress "fee_collector"; CallGetAccount "alice";
          CallSendCoinsFromAccountToModule "alice" "fee_collector" [stake 90]]).
Proof. reflexivity. Qed.

(** *** C1 *)



(** *** C2 *)

(** C2, counterexample. The gas limit [2^63] is a [uint64]; at a minimum
    of [1stake] the ceiling of rate times gas is [2^63]; the loop reads
    the gas limit as [-2^63] and panics on the negative amount. *)
Lemma gas_above_int64_panics :
  is_uint64 (2 ^ 63)
  /\ ceil_rate_gas (DecAmount oneStake) (2 ^ 63) = 2 ^ 63
  /\ requiredFees [oneStake] (2 ^ 63) = Panic "negative coin amount"
  /\ requiredFees [oneStake] (2 ^ 63)
     <> Ret [mkCoin "stake" (ceil_rate_gas (DecAmount oneStake) (2 ^ 63))].
Proof.
  assert (E : requiredFees [oneStake] (2 ^ 63) = Panic "negative coin amount")
    by reflexivity.
  split; [unfold is_uint64; lia|].
  split; [reflexivity|]. split; [exact E|]. rewrite E. discriminate.
Qed.

(** C2, witness: a minimum of [0.1stake] and gas 101 require [11stake]. *)
Lemma requiredFees_ceil_witness :
  0 <= 101 < 2 ^ 63
  /\ Forall (priceable 101) [tenthStake]
  /\ requiredFees [tenthStake] 101
     = Ret (map (fun gp => mkCoin (DecDenom gp) (ceil_rate_gas (DecAmount gp) 101))
                [tenthStake]).
Proof.
  assert (H1 : 0 <= 101 < 2 ^ 63) by lia.
  assert (H2 : Forall (priceable 101) [tenthStake]).
  { repeat constructor; vm_compute; congruence. }
  repeat (split; [assumption|]).
  exact (@requiredFees_ceil demoHost [tenthStake] 101 H1 H2).
Defined.

(** *** C3 *)

(** C3, witness: a delivery context, an underpaying transaction. *)
Lemma FeeParamDecorator_passthrough_witness :
  (IsCheckTx deliverCtx = false \/ false = true)
  /\ FeeParamDecorator_AnteHandle
       (NewFeeParamDecorator (Some (demoParams [tenthStake])))
       deliverCtx (aliceTx 100 [stake 9]) false accept world0
     = accept deliverCtx (aliceTx 100 [stake 9]) false world0.
Proof.
  assert (H : IsCheckTx deliverCtx = false \/ false = true) by (left; reflexivity).
  split; [assumption|].
  exact (@FeeParamDecorator_passthrough demoHost
           (NewFeeParamDecorator (Some (demoParams [tenthStake])))
           deliverCtx (mkFeeTx 100 [stake 9] "alice") false accept world0 H).
Defined.

(** *** C5 *)

(** C5, counterexample. The fee set [0stake] has a valid denomination,
    nothing out of order and no negative amount, and the bank would
    move it; [DeductFees] returns the invalid-fee error and asks for no
    transfer. *)
Lemma zero_amount_fee_is_invalid :
  well_formed_nonneg [stake 0]
  /\ SendCoinsFromAccountToModule demoBank checkCtx (GetAddress alice)
       FeeCollectorName [stake 0] (store world0) = (store world0, None)
  /\ DeductFees (Some demoBank) checkCtx alice [stake 0] world0
     = Done (Some (invalid_fee [stake 0])) world0
  /\ DeductFees (Some demoBank) checkCtx alice [stake 0] world0
     <> Done None (transferred alice [stake 0] (store world0) world0).
Proof.
  assert (E : DeductFees (Some demoBank) checkCtx alice [stake 0] world0
              = Done (Some (invalid_fee [stake 0])) world0) by reflexivity.
  split.
  { split; repeat constructor. cbn. lia. }
  split; [reflexivity|]. split; [exact E|]. rewrite E. discriminate.
Qed.

(** *** C6 *)



(** *** C8 *)


(** *** C9 *)

(** C9, witness: delivery without simulation against CheckTx with it. *)
Lemma DeductFee_mode_independent_witness :
  mode_blind_ak (ak (keepers (Some "collector")))
  /\ mode_blind_bk (bankKeeper (keepers (Some "collector")))
  /\ exists d w',
       forall next,
         DeductFeeDecorator_AnteHandle (keepers (Some "collector"))
           deliverCtx (aliceTx 100 [stake 9]) false next world0
         = conclude deliverCtx (aliceTx 100 [stake 9]) false next d w'
         /\ DeductFeeDecorator_AnteHandle (keepers (Some "collector"))
              (WithIsCheckTx true deliverCtx) (aliceTx 100 [stake 9]) true next world0
            = conclude (WithIsCheckTx true deliverCtx) (aliceTx 100 [stake 9])
                true next d w'.
Proof.
  assert (H1 : mode_blind_ak (ak (keepers (Some "collector"))))
    by (intros ctx b addr s; reflexivity).
  assert (H2 : mode_blind_bk (bankKeeper (keepers (Some "collector"))))
    by (intros ctx b sender recipient amt s; reflexivity).
  repeat (split; [assumption|]).
  exact (@DeductFee_mode_independent demoHost (keepers (Some "collector"))
           deliverCtx (aliceTx 100 [stake 9]) true false true world0 H1 H2).
Defined.

End Examples.

(* ================================================================= *)
(** ** The required fees and the check, for every gas limit *)

Section CheckExact.
Context {host : Host}.
Import sdk collab app reading whole sdk_facts.

(** One turn of the loop that returns has met a priceable entry. *)
Lemma required_entry_inv (gp : DecCoin) (g : Z) (c : Coin) :
  (fee <- Dec_Mul (DecAmount gp) (NewDec g) ;;
   amount <- Dec_RoundInt (Dec_Ceil fee) ;;
   NewCoin (DecDenom gp) amount)%go = Ret c ->
  priceable g gp /\ c = mkCoin (DecDenom gp) (ceil_rate_gas (DecAmount gp) g).
Proof.
  unfold priceable. rewrite ceil_rate_gas_ceilP.
  unfold Dec_Mul, NewDec. cbn [dec_i].
  rewrite Z.mul_assoc, chopPrecisionAndRound_mul.
  destruct (maxBitLen + DecimalPrecisionBits <? BitLen (dec_i (DecAmount gp) * g));
    [discriminate|].
  cbn [Go.bind]. rewrite Dec_Ceil_ceilP, Dec_RoundInt_whole.
  unfold NewIntFromBigInt.
  destruct (maxBitLen <? BitLen (ceilP (dec_i (DecAmount gp) * g))) eqn:Eb;
    [discriminate|].
  cbn [Go.bind]. unfold NewCoin.
  destruct (ValidateDenom (DecDenom gp)); [|discriminate]. cbn [negb].
  destruct (Z.ltb_spec (ceilP (dec_i (DecAmount gp) * g)) 0); [discriminate|].
  intros [= <-].
  apply BitLen_le in Eb; [|unfold maxBitLen; lia].
  repeat split; auto; lia.
Qed.

Lemma requiredFees_of_priceable (minGasPrices : DecCoins) (gas : Z) :
  Forall (priceable (int64_of_uint64 gas)) minGasPrices ->
  requiredFees minGasPrices gas
  = Ret (required_at (int64_of_uint64 gas) minGasPrices).
Proof.
  intros Hall. unfold requiredFees, required_at.
  induction Hall as [|gp rest [Hd Hc] _ IH]; [reflexivity|].
  cbn [mapM map].
  rewrite ceil_rate_gas_ceilP in Hc.
  rewrite required_entry by assumption.
  cbn [Go.bind]. rewrite IH. cbn [Go.bind].
  now rewrite ceil_rate_gas_ceilP.
Qed.

Lemma requiredFees_ret (minGasPrices : DecCoins) (gas : Z) (required : Coins) :
  requiredFees minGasPrices gas = Ret required ->
  Forall (priceable (int64_of_uint64 gas)) minGasPrices
  /\ required = required_at (int64_of_uint64 gas) minGasPrices.
Proof.
  unfold requiredFees, required_at. revert required.
  induction minGasPrices as [|gp rest IH]; intros required H.
  - cbn in H. inversion H. split; [constructor|reflexivity].
  - cbn [mapM] in H.
    destruct (fee <- Dec_Mul (DecAmount gp) (NewDec (int64_of_uint64 gas)) ;;
              amount <- Dec_RoundInt (Dec_Ceil fee) ;;
              NewCoin (DecDenom gp) amount)%go as [c|] eqn:Ec; [|discriminate].
    apply required_entry_inv in Ec as [Hp ->].
    cbn [Go.bind] in H.
    destruct (mapM _ rest) as [ys|] eqn:Er; [|discriminate].
    cbn [Go.bind] in H. inversion H. subst required.
    destruct (IH ys eq_refl) as [Hall ->].
    split; [constructor; assumption|reflexivity].
Qed.

(** X9. The loop of [AnteHandle] returns exactly when every minimum gas
    price has a denomination [NewCoin] accepts and a ceiling of rate
    times [int64(gas)] in [[0, 2^255)], and what it returns is then that
    ceiling for each denomination in order; in every other case it
    panics. *)
Theorem requiredFees_returns_iff (minGasPrices : DecCoins) (gas : Z)
    (required : Coins) :
  requiredFees minGasPrices gas = Ret required
  <-> Forall (priceable (int64_of_uint64 gas)) minGasPrices
      /\ required = required_at (int64_of_uint64 gas) minGasPrices.
Proof.
  split.
  - apply requiredFees_ret.
  - intros [Hall ->]. now apply requiredFees_of_priceable.
Qed.

Lemma ceilP_mono (x y : Z) : x <= y -> ceilP x <= ceilP y.
Proof.
  intros H. unfold ceilP. pose proof precisionReuse_pos.
  assert (- y / precisionReuse <= - x / precisionReuse)
    by (apply Z.div_le_mono; lia).
  lia.
Qed.

Lemma ceilP_nonpos (x : Z) : x <= 0 -> ceilP x <= 0.
Proof.
  intros H. unfold ceilP. pose proof precisionReuse_pos.
  assert (0 <= - x / precisionReuse) by (apply Z.div_pos; lia). lia.
Qed.

Lemma ceil_grows_with_gas (rate : Dec) (g g' : Z) :
  0 <= g <= g' ->
  0 <= ceil_rate_gas rate g -> 0 <= ceil_rate_gas rate g' ->
  ceil_rate_gas rate g <= ceil_rate_gas rate g'.
Proof.
  rewrite !ceil_rate_gas_ceilP. intros Hg H0 H1.
  destruct (Z.le_gt_cases 0 (dec_i rate)) as [Hr|Hr].
  - apply ceilP_mono. nia.
  - assert (ceilP (dec_i rate * g) <= 0) by (apply ceilP_nonpos; nia). lia.
Qed.

(** X10. A larger gas limit never lowers a required fee: when the loop
    returns for two gas limits below [2^63], the second at least the
    first, it returns the same denominations in the same order with
    amounts at least as large. *)
Theorem requiredFees_grow_with_gas (minGasPrices : DecCoins) (g g' : Z)
    (required required' : Coins) :
  0 <= g <= g' -> g' < 2 ^ 63 ->
  requiredFees minGasPrices g = Ret required ->
  requiredFees minGasPrices g' = Ret required' ->
  Forall2 (fun a b => Denom a = Denom b /\ Amount a <= Amount b)
          required required'.
Proof.
  intros Hg Hg' H H'.
  apply requiredFees_ret in H as [Hall ->].
  apply requiredFees_ret in H' as [Hall' ->].
  rewrite int64_of_uint64_small in * by lia.
  rewrite (int64_of_uint64_small (gas := g')) in * by lia.
  unfold required_at.
  induction minGasPrices as [|gp rest IH]; cbn [map]; [constructor|].
  apply Forall_cons_iff in Hall as [[_ Hc] Hall].
  apply Forall_cons_iff in Hall' as [[_ Hc'] Hall'].
  constructor; [|now apply IH].
  cbn [Denom Amount]. split; [reflexivity|].
  apply ceil_grows_with_gas; lia.
Qed.

Lemma required_at_denoms (g : Z) (minGasPrices : DecCoins) :
  map Denom (required_at g minGasPrices) = map DecDenom minGasPrices.
Proof.
  unfold required_at. rewrite map_map. reflexivity.
Qed.

Lemma required_at_sorted (g : Z) (minGasPrices : DecCoins) :
  Sorted dec_denom_lt minGasPrices ->
  StronglySorted denom_lt (required_at g minGasPrices).
Proof.
  intros Hs. apply Sorted_by_denoms with (xs := minGasPrices).
  - apply required_at_denoms.
  - apply Sorted_StronglySorted; [|assumption].
    intros a b c. apply String_as_OT.lt_trans.
Qed.

(** What the check answers once the required fees are there. *)
Lemma checkMinGasPrices_verdict (minGasPrices : DecCoins) (feeCoins : Coins)
    (gas : Z) (required : Coins) :
  DecCoins_IsZero minGasPrices = false ->
  requiredFees minGasPrices gas = Ret required ->
  StronglySorted denom_lt required ->
  valid_denoms feeCoins ->
  checkMinGasPrices minGasPrices feeCoins gas
  = if existsb (gte_nonzero required) feeCoins then Ret None
    else Ret (Some (insufficient_fees feeCoins required)).
Proof.
  intros Hnz Hreq Hs Hv. unfold checkMinGasPrices.
  rewrite Hnz, Hreq. cbn [negb Go.bind].
  rewrite (IsAnyGTE_sorted Hv Hs). cbn [Go.bind].
  destruct (existsb (gte_nonzero required) feeCoins); reflexivity.
Qed.

Lemma qualifies_pays_some (feeCoins : Coins) (minGasPrices : DecCoins) (g : Z) :
  Forall (priceable g) minGasPrices ->
  qualifies feeCoins (required_at g minGasPrices)
  <-> pays_some feeCoins minGasPrices g.
Proof.
  intros Hall. rewrite Forall_forall in Hall.
  unfold qualifies, pays_some, required_at. split.
  - intros (c & r & Hc & Hr & Hd & Hnz & Hle).
    apply in_map_iff in Hr as (gp & <- & Hgp). cbn [Denom Amount] in *.
    destruct (Hall gp Hgp) as [_ Hb].
    exists c, gp. repeat split; auto; lia.
  - intros (c & gp & Hc & Hgp & Hd & Hpos & Hle).
    exists c, (mkCoin (DecDenom gp) (ceil_rate_gas (DecAmount gp) g)).
    cbn [Denom Amount]. repeat split; auto; try lia.
    apply in_map_iff. exists gp. auto.
Qed.

(** X11. For a gas limit below [2^63] and minimum gas prices that are
    not all zero, sorted by denomination and priceable, the check lets a
    fee with well-formed denominations through exactly when some declared
    coin is in a denomination of the minimums whose [ceil(rate * gas)] is
    above zero and at most the declared amount; a fee that pays no
    minimum in full gets the InsufficientFee error with the declared and
    the required fees. *)
Theorem checkMinGasPrices_accepts_iff (minGasPrices : DecCoins)
    (feeCoins : Coins) (gas : Z) :
  0 <= gas < 2 ^ 63 ->
  DecCoins_IsZero minGasPrices = false ->
  Sorted dec_denom_lt minGasPrices ->
  Forall (priceable gas) minGasPrices ->
  valid_denoms feeCoins ->
  (checkMinGasPrices minGasPrices feeCoins gas = Ret None
   <-> pays_some feeCoins minGasPrices gas)
  /\ (~ pays_some feeCoins minGasPrices gas ->
      checkMinGasPrices minGasPrices feeCoins gas
      = Ret (Some (insufficient_fees feeCoins (required_at gas minGasPrices)))).
Proof.
  intros Hg Hnz Hsorted Hall Hv.
  pose proof (int64_of_uint64_small Hg) as Hi.
  assert (Hreq : requiredFees minGasPrices gas = Ret (required_at gas minGasPrices)).
  { rewrite <- Hi at 2. apply requiredFees_of_priceable. now rewrite Hi. }
  pose proof (required_at_sorted gas Hsorted) as Hs.
  rewrite checkMinGasPrices_verdict with (required := required_at gas minGasPrices)
    by assumption.
  pose proof (existsb_gte_nonzero feeCoins Hs) as Hq.
  pose proof (qualifies_pays_some feeCoins Hall) as Hp.
  destruct (existsb (gte_nonzero (required_at gas minGasPrices)) feeCoins).
  - assert (pays_some feeCoins minGasPrices gas) by (apply Hp, Hq; reflexivity).
    split; [tauto|]. intros Hn. contradiction.
  - split; [|reflexivity].
    split; [discriminate|]. intros H. apply Hp, Hq in H. discriminate.
Qed.

Lemma qualifies_covered (fee fee' required : Coins) :
  covered fee fee' -> qualifies fee required -> qualifies fee' required.
Proof.
  intros Hcov (c & r & Hc & Hr & Hd & Hnz & Hle).
  destruct (Hcov c Hc) as (c' & Hc' & Hd' & Hle').
  exists c', r. repeat split; auto; [congruence|lia].
Qed.

(** X12. Paying more never hurts: if the check lets a fee through, it
    lets through every fee that holds, for each of its coins, a coin of the
    same denomination and at least the same amount. The minimum gas
    prices are sorted by denomination and both fees have well-formed
    denominations. *)
Theorem checkMinGasPrices_monotone (minGasPrices : DecCoins)
    (fee fee' : Coins) (gas : Z) :
  Sorted dec_denom_lt minGasPrices ->
  valid_denoms fee -> valid_denoms fee' ->
  covered fee fee' ->
  checkMinGasPrices minGasPrices fee gas = Ret None ->
  checkMinGasPrices minGasPrices fee' gas = Ret None.
Proof.
  intros Hsorted Hv Hv' Hcov Hpass.
  destruct (DecCoins_IsZero minGasPrices) eqn:Hz.
  { unfold checkMinGasPrices. now rewrite Hz. }
  destruct (requiredFees minGasPrices gas) as [required|msg] eqn:Hreq.
  2:{ unfold checkMinGasPrices in Hpass. rewrite Hz, Hreq in Hpass. discriminate. }
  assert (Hs : StronglySorted denom_lt required).
  { apply requiredFees_ret in Hreq as [_ ->]. now apply required_at_sorted. }
  rewrite checkMinGasPrices_verdict with (required := required) in Hpass
    by assumption.
  rewrite checkMinGasPrices_verdict with (required := required) by assumption.
  destruct (existsb (gte_nonzero required) fee) eqn:E; [|discriminate].
  apply (existsb_gte_nonzero fee Hs) in E.
  apply (qualifies_covered Hcov) in E.
  apply (existsb_gte_nonzero fee' Hs) in E. now rewrite E.
Qed.

Lemma Forall_firstn_skipn (P : Coin -> Prop) (n : nat) (coins : Coins) :
  Forall P coins -> Forall P (firstn n coins) /\ Forall P (skipn n coins).
Proof.
  intros H. rewrite <- (firstn_skipn n coins) in H.
  now apply Forall_app in H.
Qed.

(** The search finds nothing but zero among coins that are all zero,
    sorted or not. *)
Lemma amountOf_search_zero (fuel : nat) :
  forall (coins : Coins) (denom : string),
    Forall (fun c => Amount c = 0) coins ->
    amountOf_search fuel coins denom = 0.
Proof.
  induction fuel as [|fuel IH]; intros coins denom Hz.
  - destruct coins as [|c [|c' rest]]; cbn; try reflexivity.
    apply Forall_inv in Hz. destruct (String.eqb (Denom c) denom); auto.
  - destruct coins as [|c [|c' rest]]; [reflexivity| |].
    + cbn. apply Forall_inv in Hz. destruct (String.eqb (Denom c) denom); auto.
    + remember (c :: c' :: rest) as coins eqn:Ecoins.
      assert (Hunfold :
        amountOf_search (S fuel) coins denom =
        match nth_error coins (midIdx coins) with
        | None => 0
        | Some coin =>
            match String.compare denom (Denom coin) with
            | Lt => amountOf_search fuel (firstn (midIdx coins) coins) denom
            | Eq => Amount coin
            | Gt => amountOf_search fuel (skipn (S (midIdx coins)) coins) denom
            end
        end) by (subst coins; reflexivity).
      rewrite Hunfold. clear Hunfold Ecoins.
      destruct (nth_error coins (midIdx coins)) as [coin|] eqn:Enth;
        [|reflexivity].
      destruct (String.compare denom (Denom coin)).
      * apply nth_error_In in Enth. rewrite Forall_forall in Hz. auto.
      * apply IH. now apply Forall_firstn_skipn.
      * apply IH. now apply Forall_firstn_skipn.
Qed.

Lemma anyGTE_loop_zero (coins coinsB : Coins) :
  valid_denoms coins ->
  Forall (fun c => Amount c = 0) coinsB ->
  anyGTE_loop coins coinsB = Ret false.
Proof.
  intros Hv Hz. induction Hv as [|c coins Hc _ IH]; [reflexivity|].
  cbn [anyGTE_loop]. unfold AmountOf. rewrite Hc. cbn [negb Go.bind].
  rewrite amountOf_search_zero by assumption.
  cbn. rewrite andb_false_r. exact IH.
Qed.

Lemma ceil_rate_gas_zero (rate : Dec) : ceil_rate_gas rate 0 = 0.
Proof.
  rewrite ceil_rate_gas_ceilP, Z.mul_0_r. reflexivity.
Qed.

Lemma required_at_zero (minGasPrices : DecCoins) :
  required_at 0 minGasPrices = zero_coins minGasPrices.
Proof.
  unfold required_at, zero_coins. apply map_ext. intros gp.
  now rewrite ceil_rate_gas_zero.
Qed.

(** X13. At a gas limit of zero every required amount is zero and nothing
    can pay it: with minimum gas prices that are not all zero and have
    denominations [NewCoin] accepts, the check rejects every fee with
    well-formed denominations, however large. *)
Theorem checkMinGasPrices_zero_gas (minGasPrices : DecCoins) (feeCoins : Coins) :
  DecCoins_IsZero minGasPrices = false ->
  Forall (fun gp => ValidateDenom (DecDenom gp) = true) minGasPrices ->
  valid_denoms feeCoins ->
  checkMinGasPrices minGasPrices feeCoins 0
  = Ret (Some (insufficient_fees feeCoins (zero_coins minGasPrices))).
Proof.
  intros Hnz Hd Hv.
  assert (Hreq : requiredFees minGasPrices 0 = Ret (zero_coins minGasPrices)).
  { rewrite <- required_at_zero.
    change 0 with (int64_of_uint64 0) at 2.
    apply requiredFees_of_priceable.
    change (int64_of_uint64 0) with 0.
    eapply Forall_impl; [|exact Hd]. intros gp Hgp. split; [assumption|].
    rewrite ceil_rate_gas_zero. unfold maxBitLen. lia. }
  unfold checkMinGasPrices. rewrite Hnz, Hreq. cbn [negb Go.bind].
  assert (Hany : IsAnyGTE feeCoins (zero_coins minGasPrices) = Ret false).
  { unfold IsAnyGTE. destruct (zero_coins minGasPrices) eqn:E; [reflexivity|].
    rewrite <- E. apply anyGTE_loop_zero; [assumption|].
    unfold zero_coins. apply Forall_map. apply Forall_forall. reflexivity. }
  rewrite Hany. reflexivity.
Qed.

(** X14. A gas limit from [2^63] up is read as a negative number: as soon
    as one minimum gas price times [2^64 - gas] reaches one whole unit,
    the check panics, whatever the declared fee. *)
Theorem checkMinGasPrices_large_gas_panics (minGasPrices : DecCoins)
    (feeCoins : Coins) (gas : Z) (gp : DecCoin) :
  2 ^ 63 <= gas < 2 ^ 64 ->
  In gp minGasPrices ->
  precisionReuse <= dec_i (DecAmount gp) * (2 ^ 64 - gas) ->
  exists msg, checkMinGasPrices minGasPrices feeCoins gas = Panic msg.
Proof.
  intros Hg Hin Hrate.
  pose proof precisionReuse_pos as HP.
  assert (Hnz : DecCoins_IsZero minGasPrices = false).
  { unfold DecCoins_IsZero.
    destruct (forallb _ minGasPrices) eqn:E; [|reflexivity].
    rewrite forallb_forall in E. specialize (E gp Hin).
    unfold Dec_IsZero in E. apply Z.eqb_eq in E. rewrite E in Hrate. lia. }
  unfold checkMinGasPrices. rewrite Hnz. cbn [negb].
  destruct (requiredFees minGasPrices gas) as [required|msg] eqn:Hreq.
  - exfalso. apply requiredFees_ret in Hreq as [Hall _].
    rewrite Forall_forall in Hall. destruct (Hall gp Hin) as [_ [Hc _]].
    rewrite (int64_of_uint64_large Hg), ceil_rate_gas_ceilP in Hc.
    pose proof (ceilP_bounds (dec_i (DecAmount gp) * (gas - 2 ^ 64))) as Hb.
    nia.
  - exists msg. reflexivity.
Qed.

End CheckExact.

(* ================================================================= *)
(** ** The deduction handler, path by path *)

Section DeductPaths.
Context {host : Host}.
Import sdk collab app reading whole sdk_facts.

(** The handler once the collector is known and the payer found. *)
Lemma DeductFee_after_lookups (k : AccountKeeper) (bko : interface BankKeeper)
    (ps : interface ParamStore) (ctx : Context) (feeTx : FeeTx)
    (simulate : bool) (next : AnteHandler) (w : World)
    (collector : AccAddress) (acc : AccountI) :
  GetModuleAddress k FeeCollectorName = Some collector ->
  GetAccount k ctx (FeePayer feeTx) (store w) = Some acc ->
  DeductFeeDecorator_AnteHandle (mkDeductFeeDecorator (Some k) bko ps) ctx
    (TxWithFee feeTx) simulate next w
  = (err <- (if negb (Coins_IsZero (GetFee feeTx))
             then DeductFees bko ctx acc (GetFee feeTx)
             else ret None) ;;
     match err with
     | Some e => ret (ctx, Some e)
     | None => next ctx (TxWithFee feeTx) simulate
     end)%world (looked_up feeTx w).
Proof.
  intros Hc Ha. unfold DeductFeeDecorator_AnteHandle. cbn [asFeeTx ak bankKeeper].
  unfold bindM at 1 2 3. unfold invoke, log_call, ret, looked_up.
  cbn [store calls]. rewrite Hc. cbn [store calls].
  unfold bindM at 1. cbn [store calls]. rewrite Ha.
  rewrite <- app_assoc. reflexivity.
Qed.

Lemma DeductFees_invalid (bko : interface BankKeeper) (ctx : Context)
    (acc : AccountI) (fees : Coins) (w : World) :
  ~ well_formed fees ->
  DeductFees bko ctx acc fees w = Done (Some (invalid_fee fees)) w.
Proof.
  intros Hn. unfold DeductFees.
  destruct (Coins_IsValid fees) eqn:E; [|reflexivity].
  apply Coins_IsValid_spec in E. contradiction.
Qed.

Lemma DeductFees_valid (bk : BankKeeper) (ctx : Context)
    (acc : AccountI) (fees : Coins) (w : World) :
  well_formed fees ->
  DeductFees (Some bk) ctx acc fees w
  = let '(s, err) := SendCoinsFromAccountToModule bk ctx (GetAddress acc)
                       FeeCollectorName fees (store w) in
    Done match err with
         | Some e => Some (Wrapf ErrInsufficientFunds (Error e) [])
         | None => None
         end (transferred acc fees s w).
Proof.
  intros Hwf. apply Coins_IsValid_spec in Hwf. unfold DeductFees. rewrite Hwf.
  cbn [negb]. unfold bindM, invoke, log_call, ret, transferred. cbn [store calls].
  destruct (SendCoinsFromAccountToModule bk ctx (GetAddress acc)
              FeeCollectorName fees (store w)) as [s [e|]]; reflexivity.
Qed.

(** A transaction that is not a [FeeTx] is turned away by both
    handlers with the TxDecode error, in any mode and under any flag:
    no collaborator is called, [next] is not called, and the deduction
    handler gets there before it looks for the fee collector, so it does
    not panic even where that is unset or a keeper is nil. *)
Lemma non_FeeTx_rejected (mfd : FeeParamDecorator) (dfd : DeductFeeDecorator)
    (ctx : Context) (raw : string) (simulate : bool) (next : AnteHandler)
    (w : World) :
  FeeParamDecorator_AnteHandle mfd ctx (TxWithoutFee raw) simulate next w
  = Done (ctx, Some not_a_FeeTx) w
  /\ DeductFeeDecorator_AnteHandle dfd ctx (TxWithoutFee raw) simulate next w
     = Done (ctx, Some not_a_FeeTx) w.
Proof. split; reflexivity. Qed.

(** X1. A fee that is empty or holds zero amounts only is not deducted:
    with the collector set and the payer found, the handler goes on to
    [next] with no transfer asked for and the store as it was, in any
    mode. *)
Theorem DeductFee_zero_fee (k : AccountKeeper) (bko : interface BankKeeper)
    (ps : interface ParamStore) (ctx : Context) (feeTx : FeeTx)
    (simulate : bool) (next : AnteHandler) (w : World)
    (collector : AccAddress) (acc : AccountI) :
  GetModuleAddress k FeeCollectorName = Some collector ->
  GetAccount k ctx (FeePayer feeTx) (store w) = Some acc ->
  Coins_IsZero (GetFee feeTx) = true ->
  DeductFeeDecorator_AnteHandle (mkDeductFeeDecorator (Some k) bko ps) ctx
    (TxWithFee feeTx) simulate next w
  = next ctx (TxWithFee feeTx) simulate (looked_up feeTx w).
Proof.
  intros Hc Ha Hz.
  rewrite DeductFee_after_lookups with (collector := collector) (acc := acc)
    by assumption.
  rewrite Hz. reflexivity.
Qed.

(** X2. The paying path: with the collector set, the payer found, a fee
    that is well formed and not zero, and a transfer that succeeds, the
    handler asks the bank once to move exactly the declared fee from the
    address the account reports to the fee collector, and calls [next]
    with the context, transaction and flag it was given, on the store the
    bank left. *)
Theorem DeductFee_success (k : AccountKeeper) (bk : BankKeeper)
    (ps : interface ParamStore) (ctx : Context) (feeTx : FeeTx)
    (simulate : bool) (next : AnteHandler) (w : World)
    (collector : AccAddress) (acc : AccountI) (s : Store) :
  GetModuleAddress k FeeCollectorName = Some collector ->
  GetAccount k ctx (FeePayer feeTx) (store w) = Some acc ->
  Coins_IsZero (GetFee feeTx) = false ->
  well_formed (GetFee feeTx) ->
  SendCoinsFromAccountToModule bk ctx (GetAddress acc) FeeCollectorName
    (GetFee feeTx) (store w) = (s, None) ->
  DeductFeeDecorator_AnteHandle (mkDeductFeeDecorator (Some k) (Some bk) ps) ctx
    (TxWithFee feeTx) simulate next w
  = next ctx (TxWithFee feeTx) simulate
      (transferred acc (GetFee feeTx) s (looked_up feeTx w)).
Proof.
  intros Hc Ha Hz Hwf Hsend.
  rewrite DeductFee_after_lookups with (collector := collector) (acc := acc)
    by assumption.
  rewrite Hz. cbn [negb]. unfold bindM.
  rewrite DeductFees_valid by assumption.
  unfold looked_up at 1. cbn [store]. rewrite Hsend. reflexivity.
Qed.

(** X3. When the transfer fails, the handler returns the context with the
    bank's message wrapped in InsufficientFunds; [next] is not called and
    the store is the one the bank left behind. *)
Theorem DeductFee_transfer_fails (k : AccountKeeper) (bk : BankKeeper)
    (ps : interface ParamStore) (ctx : Context) (feeTx : FeeTx)
    (simulate : bool) (next : AnteHandler) (w : World)
    (collector : AccAddress) (acc : AccountI) (s : Store) (e : error) :
  GetModuleAddress k FeeCollectorName = Some collector ->
  GetAccount k ctx (FeePayer feeTx) (store w) = Some acc ->
  Coins_IsZero (GetFee feeTx) = false ->
  well_formed (GetFee feeTx) ->
  SendCoinsFromAccountToModule bk ctx (GetAddress acc) FeeCollectorName
    (GetFee feeTx) (store w) = (s, Some e) ->
  DeductFeeDecorator_AnteHandle (mkDeductFeeDecorator (Some k) (Some bk) ps) ctx
    (TxWithFee feeTx) simulate next w
  = Done (ctx, Some (Wrapf ErrInsufficientFunds (Error e) []))
      (transferred acc (GetFee feeTx) s (looked_up feeTx w)).
Proof.
  intros Hc Ha Hz Hwf Hsend.
  rewrite DeductFee_after_lookups with (collector := collector) (acc := acc)
    by assumption.
  rewrite Hz. cbn [negb]. unfold bindM.
  rewrite DeductFees_valid by assumption.
  unfold looked_up at 1. cbn [store]. rewrite Hsend. reflexivity.
Qed.

(** X4. A fee that is not zero and not well formed stops the handler
    with the invalid-fee InsufficientFee error: no transfer is asked for,
    [next] is not called, and this holds for every bank keeper, a nil
    one included. *)
Theorem DeductFee_malformed_fee (k : AccountKeeper) (bko : interface BankKeeper)
    (ps : interface ParamStore) (ctx : Context) (feeTx : FeeTx)
    (simulate : bool) (next : AnteHandler) (w : World)
    (collector : AccAddress) (acc : AccountI) :
  GetModuleAddress k FeeCollectorName = Some collector ->
  GetAccount k ctx (FeePayer feeTx) (store w) = Some acc ->
  Coins_IsZero (GetFee feeTx) = false ->
  ~ well_formed (GetFee feeTx) ->
  DeductFeeDecorator_AnteHandle (mkDeductFeeDecorator (Some k) bko ps) ctx
    (TxWithFee feeTx) simulate next w
  = Done (ctx, Some (invalid_fee (GetFee feeTx))) (looked_up feeTx w).
Proof.
  intros Hc Ha Hz Hn.
  rewrite DeductFee_after_lookups with (collector := collector) (acc := acc)
    by assumption.
  rewrite Hz. cbn [negb]. unfold bindM.
  rewrite DeductFees_invalid by assumption. reflexivity.
Qed.

(** X5. A fee with a negative amount never reaches the bank: whatever
    else the fee holds, the handler answers with the invalid-fee error
    and asks for no transfer. *)
Theorem DeductFee_negative_amount (k : AccountKeeper) (bko : interface BankKeeper)
    (ps : interface ParamStore) (ctx : Context) (feeTx : FeeTx)
    (simulate : bool) (next : AnteHandler) (w : World)
    (collector : AccAddress) (acc : AccountI) (c : Coin) :
  GetModuleAddress k FeeCollectorName = Some collector ->
  GetAccount k ctx (FeePayer feeTx) (store w) = Some acc ->
  In c (GetFee feeTx) -> Amount c < 0 ->
  DeductFeeDecorator_AnteHandle (mkDeductFeeDecorator (Some k) bko ps) ctx
    (TxWithFee feeTx) simulate next w
  = Done (ctx, Some (invalid_fee (GetFee feeTx))) (looked_up feeTx w).
Proof.
  intros Hc Ha Hin Hneg.
  rewrite DeductFee_after_lookups with (collector := collector) (acc := acc)
    by assumption.
  assert (Hz : Coins_IsZero (GetFee feeTx) = false).
  { unfold Coins_IsZero. destruct (forallb _ (GetFee feeTx)) eqn:E; [|reflexivity].
    rewrite forallb_forall in E. specialize (E c Hin).
    unfold Coin_IsZero in E. apply Z.eqb_eq in E. lia. }
  assert (Hn : ~ well_formed (GetFee feeTx)).
  { intros [Hall _]. rewrite Forall_forall in Hall.
    destruct (Hall c Hin). lia. }
  rewrite Hz. cbn [negb]. unfold bindM.
  rewrite DeductFees_invalid by assumption. reflexivity.
Qed.

End DeductPaths.

Section DeductShape.
Context {host : Host}.
Import sdk collab app reading whole sdk_facts.

Lemma no_transfer_in (feeTx : FeeTx) (l : list Call) :
  (forall c, In c l -> ~ is_transfer feeTx c) ->
  forall sender,
    ~ In (CallSendCoinsFromAccountToModule sender FeeCollectorName (GetFee feeTx)) l.
Proof.
  intros H sender Hin. apply (H _ Hin). now exists sender.
Qed.

(** X6. What a run of the deduction handler on a [FeeTx] may do to the
    world, for every decorator, mode and flag: it adds the collector
    look-up, then the payer look-up, then at most one transfer, which is
    of the declared fee and to the fee collector; it never reads the
    parameter store; and unless it asked for the transfer the store is as
    it was. *)
Theorem DeductFee_calls (dfd : DeductFeeDecorator) (ctx : Context)
    (feeTx : FeeTx) (simulate : bool) (w : World) :
  exists d w' l,
    (forall next,
        DeductFeeDecorator_AnteHandle dfd ctx (TxWithFee feeTx) simulate next w
        = conclude ctx (TxWithFee feeTx) simulate next d w')
    /\ calls w' = calls w ++ l
    /\ deduct_calls feeTx l
    /\ ((forall c, In c l -> ~ is_transfer feeTx c) -> store w' = store w).
Proof.
  destruct dfd as [[k|] bko ps].
  2:{ exists (Crash nil_dereference), w, []. rewrite app_nil_r.
      repeat split; auto. now left. }
  unfold DeductFeeDecorator_AnteHandle; cbn [asFeeTx ak bankKeeper].
  unfold bindM, invoke, log_call, ret, panic; cbn [store calls].
  destruct (GetModuleAddress k FeeCollectorName) as [collector|].
  2:{ eexists (Crash _), _, [CallGetModuleAddress FeeCollectorName].
      split; [intros next; reflexivity|]. cbn [calls store].
      repeat split; auto. right; now left. }
  cbn [store calls].
  destruct (GetAccount k ctx (FeePayer feeTx) (store w)) as [acc|].
  2:{ eexists (Reject _), _, [_; _].
      split; [intros next; reflexivity|]. cbn [calls store].
      rewrite <- app_assoc. repeat split; auto. right; right; now left. }
  destruct (Coins_IsZero (GetFee feeTx)); cbn [negb].
  { exists CallNext. eexists _, [_; _].
    split; [intros next; reflexivity|]. cbn [calls store].
    rewrite <- app_assoc. repeat split; auto. right; right; now left. }
  unfold DeductFees.
  destruct (Coins_IsValid (GetFee feeTx)); cbn [negb].
  2:{ eexists (Reject _), _, [_; _].
      split; [intros next; reflexivity|]. cbn [calls store].
      rewrite <- app_assoc. repeat split; auto. right; right; now left. }
  destruct bko as [bk|].
  2:{ eexists (Crash _), _, [_; _].
      split; [intros next; reflexivity|]. cbn [calls store].
      rewrite <- app_assoc. repeat split; auto. right; right; now left. }
  unfold bindM, invoke, log_call, ret, panic; cbn [store calls].
  assert (Htr : is_transfer feeTx
                  (CallSendCoinsFromAccountToModule (GetAddress acc)
                     FeeCollectorName (GetFee feeTx))) by (now exists (GetAddress acc)).
  destruct (SendCoinsFromAccountToModule bk ctx (GetAddress acc)
              FeeCollectorName (GetFee feeTx) (store w)) as [s [e|]].
  - eexists (Reject _), _, [_; _; _].
    split; [intros next; reflexivity|]. cbn [calls store].
    rewrite <- !app_assoc. split; [reflexivity|]. split.
    + right; right; right. eexists. split; [exact Htr|reflexivity].
    + intros Hno. exfalso. apply (Hno _ (or_intror (or_intror (or_introl eq_refl)))).
      exact Htr.
  - exists CallNext. eexists _, [_; _; _].
    split; [intros next; reflexivity|]. cbn [calls store].
    rewrite <- !app_assoc. split; [reflexivity|]. split.
    + right; right; right. eexists. split; [exact Htr|reflexivity].
    + intros Hno. exfalso. apply (Hno _ (or_intror (or_intror (or_introl eq_refl)))).
      exact Htr.
Qed.

(** X7. With both keepers in place, the handler asks for the transfer
    exactly when the fee collector is set, the payer has an account, and
    the declared fee is not zero and well formed; the execution mode and
    the simulate flag play no part. *)
Theorem DeductFee_transfers_iff (k : AccountKeeper) (bk : BankKeeper)
    (ps : interface ParamStore) (ctx : Context) (feeTx : FeeTx)
    (simulate : bool) (w : World) :
  exists d w' l,
    (forall next,
        DeductFeeDecorator_AnteHandle (mkDeductFeeDecorator (Some k) (Some bk) ps)
          ctx (TxWithFee feeTx) simulate next w
        = conclude ctx (TxWithFee feeTx) simulate next d w')
    /\ calls w' = calls w ++ l
    /\ ((exists c, In c l /\ is_transfer feeTx c)
        <-> GetModuleAddress k FeeCollectorName <> None
            /\ GetAccount k ctx (FeePayer feeTx) (store w) <> None
            /\ Coins_IsZero (GetFee feeTx) = false
            /\ well_formed (GetFee feeTx)).
Proof.
  unfold DeductFeeDecorator_AnteHandle; cbn [asFeeTx ak bankKeeper].
  unfold bindM, invoke, log_call, ret, panic; cbn [store calls].
  destruct (GetModuleAddress k FeeCollectorName) as [collector|].
  2:{ eexists (Crash _), _, [CallGetModuleAddress FeeCollectorName].
      split; [intros next; reflexivity|]. cbn [calls store]. split; [reflexivity|].
      split; [|intros [H _]; congruence].
      intros (c & [<-|[]] & sender & Hs). discriminate. }
  cbn [store calls].
  destruct (GetAccount k ctx (FeePayer feeTx) (store w)) as [acc|].
  2:{ eexists (Reject _), _, [_; _].
      split; [intros next; reflexivity|]. cbn [calls store].
      rewrite <- app_assoc. split; [reflexivity|].
      split; [|intros (_ & H & _); congruence].
      intros (c & [<-|[<-|[]]] & sender & Hs); discriminate. }
  destruct (Coins_IsZero (GetFee feeTx)); cbn [negb].
  { exists CallNext. eexists _, [_; _].
    split; [intros next; reflexivity|]. cbn [calls store].
    rewrite <- app_assoc. split; [reflexivity|].
    split; [|intros (_ & _ & H & _); discriminate].
    intros (c & [<-|[<-|[]]] & sender & Hs); discriminate. }
  unfold DeductFees.
  destruct (Coins_IsValid (GetFee feeTx)) eqn:Ev; cbn [negb].
  2:{ eexists (Reject _), _, [_; _].
      split; [intros next; reflexivity|]. cbn [calls store].
      rewrite <- app_assoc. split; [reflexivity|]. split.
      - intros (c & [<-|[<-|[]]] & sender & Hs); discriminate.
      - intros (_ & _ & _ & Hwf). apply Coins_IsValid_spec in Hwf. congruence. }
  apply Coins_IsValid_spec in Ev.
  unfold bindM, invoke, log_call, ret, panic; cbn [store calls].
  assert (Htr : is_transfer feeTx
                  (CallSendCoinsFromAccountToModule (GetAddress acc)
                     FeeCollectorName (GetFee feeTx))) by (now exists (GetAddress acc)).
  destruct (SendCoinsFromAccountToModule bk ctx (GetAddress acc)
              FeeCollectorName (GetFee feeTx) (store w)) as [s [e|]].
  - eexists (Reject _), _, [_; _; _].
    split; [intros next; reflexivity|]. cbn [calls store].
    rewrite <- !app_assoc. split; [reflexivity|]. split.
    + intros _. split; [discriminate|]. split; [discriminate|].
      split; [reflexivity|exact Ev].
    + intros _. eexists. split; [|exact Htr]. cbn. auto.
  - exists CallNext. eexists _, [_; _; _].
    split; [intros next; reflexivity|]. cbn [calls store].
    rewrite <- !app_assoc. split; [reflexivity|]. split.
    + intros _. split; [discriminate|]. split; [discriminate|].
      split; [reflexivity|exact Ev].
    + intros _. eexists. split; [|exact Htr]. cbn. auto.
Qed.


End DeductShape.

Section ValidateFeeErrors.
Context {host : Host}.
Import sdk collab app reading whole.



End ValidateFeeErrors.

(* ================================================================= *)
(** ** The paths on concrete inputs *)

Section PathExamples.
Import sdk collab app reading whole demo.
#[local] Existing Instance demoHost.
Local Open Scope string_scope.

(** X1, witness: Alice declares [0stake]. *)
Lemma DeductFee_zero_fee_witness :
  GetModuleAddress (demoAccounts (Some "collector")) FeeCollectorName
  = Some "collector"
  /\ GetAccount (demoAccounts (Some "collector")) checkCtx "alice" (store world0)
     = Some alice
  /\ Coins_IsZero [stake 0] = true
  /\ DeductFeeDecorator_AnteHandle (keepers (Some "collector")) checkCtx
       (aliceTx 100 [stake 0]) false accept world0
     = accept checkCtx (aliceTx 100 [stake 0]) false
         (looked_up (mkFeeTx 100 [stake 0] "alice") world0).
Proof.
  assert (H1 : GetModuleAddress (demoAccounts (Some "collector")) FeeCollectorName
               = Some "collector") by reflexivity.
  assert (H2 : GetAccount (demoAccounts (Some "collector")) checkCtx
                 (FeePayer (mkFeeTx 100 [stake 0] "alice")) (store world0)
               = Some alice) by reflexivity.
  assert (H3 : Coins_IsZero (GetFee (mkFeeTx 100 [stake 0] "alice")) = true)
    by reflexivity.
  repeat (split; [assumption|]).
  exact (@DeductFee_zero_fee demoHost (demoAccounts (Some "collector"))
           (Some demoBank) None checkCtx (mkFeeTx 100 [stake 0] "alice") false
           accept world0 "collector" alice H1 H2 H3).
Defined.

(** X2, witness: Alice, with 50 on the ledger, declares [9stake]. *)
Lemma DeductFee_success_witness :
  GetModuleAddress (demoAccounts (Some "collector")) FeeCollectorName
  = Some "collector"
  /\ GetAccount (demoAccounts (Some "collector")) checkCtx "alice" (store world0)
     = Some alice
  /\ Coins_IsZero [stake 9] = false
  /\ well_formed [stake 9]
  /\ SendCoinsFromAccountToModule demoBank checkCtx "alice" FeeCollectorName
       [stake 9] (store world0) = ([("alice", 41)], None)
  /\ DeductFeeDecorator_AnteHandle (keepers (Some "collector")) checkCtx
       (aliceTx 100 [stake 9]) false accept world0
     = accept checkCtx (aliceTx 100 [stake 9]) false
         (transferred alice [stake 9] [("alice", 41)]
            (looked_up (mkFeeTx 100 [stake 9] "alice") world0)).
Proof.
  assert (H1 : GetModuleAddress (demoAccounts (Some "collector")) FeeCollectorName
               = Some "collector") by reflexivity.
  assert (H2 : GetAccount (demoAccounts (Some "collector")) checkCtx
                 (FeePayer (mkFeeTx 100 [stake 9] "alice")) (store world0)
               = Some alice) by reflexivity.
  assert (H3 : Coins_IsZero (GetFee (mkFeeTx 100 [stake 9] "alice")) = false)
    by reflexivity.
  assert (H4 : well_formed (GetFee (mkFeeTx 100 [stake 9] "alice"))).
  { split; repeat constructor. }
  assert (H5 : SendCoinsFromAccountToModule demoBank checkCtx (GetAddress alice)
                 FeeCollectorName (GetFee (mkFeeTx 100 [stake 9] "alice"))
                 (store world0) = ([("alice", 41)], None)) by reflexivity.
  repeat (split; [assumption|]).
  exact (@DeductFee_success demoHost (demoAccounts (Some "collector")) demoBank
           None checkCtx (mkFeeTx 100 [stake 9] "alice") false accept world0
           "collector" alice [("alice", 41)] H1 H2 H3 H4 H5).
Defined.

(** X3, witness: Alice, with 50 on the ledger, declares [90stake]. *)
Lemma DeductFee_transfer_fails_witness :
  GetModuleAddress (demoAccounts (Some "collector")) FeeCollectorName
  = Some "collector"
  /\ GetAccount (demoAccounts (Some "collector")) deliverCtx "alice" (store world0)
     = Some alice
  /\ Coins_IsZero [stake 90] = false
  /\ well_formed [stake 90]
  /\ SendCoinsFromAccountToModule demoBank deliverCtx "alice" FeeCollectorName
       [stake 90] (store world0)
     = (store world0, Some (Errorf "insufficient funds" []))
  /\ DeductFeeDecorator_AnteHandle (keepers (Some "collector")) deliverCtx
       (aliceTx 100 [stake 90]) false accept world0
     = Done (deliverCtx,
             Some (Wrapf ErrInsufficientFunds
                     (Error (Errorf "insufficient funds" [])) []))
         (transferred alice [stake 90] (store world0)
            (looked_up (mkFeeTx 100 [stake 90] "alice") world0)).
Proof.
  assert (H1 : GetModuleAddress (demoAccounts (Some "collector")) FeeCollectorName
               = Some "collector") by reflexivity.
  assert (H2 : GetAccount (demoAccounts (Some "collector")) deliverCtx
                 (FeePayer (mkFeeTx 100 [stake 90] "alice")) (store world0)
               = Some alice) by reflexivity.
  assert (H3 : Coins_IsZero (GetFee (mkFeeTx 100 [stake 90] "alice")) = false)
    by reflexivity.
  assert (H4 : well_formed (GetFee (mkFeeTx 100 [stake 90] "alice"))).
  { split; repeat constructor. }
  assert (H5 : SendCoinsFromAccountToModule demoBank deliverCtx (GetAddress alice)
                 FeeCollectorName (GetFee (mkFeeTx 100 [stake 90] "alice"))
                 (store world0)
               = (store world0, Some (Errorf "insufficient funds" [])))
    by reflexivity.
  repeat (split; [assumption|]).
  exact (@DeductFee_transfer_fails demoHost (demoAccounts (Some "collector"))
           demoBank None deliverCtx (mkFeeTx 100 [stake 90] "alice") false accept
           world0 "collector" alice (store world0)
           (Errorf "insufficient funds" []) H1 H2 H3 H4 H5).
Defined.

(** X4, witness: a fee out of order, [5stake,3atom]. *)
Lemma DeductFee_malformed_fee_witness :
  GetModuleAddress (demoAccounts (Some "collector")) FeeCollectorName
  = Some "collector"
  /\ GetAccount (demoAccounts (Some "collector")) deliverCtx "alice" (store world0)
     = Some alice
  /\ Coins_IsZero [stake 5; atom 3] = false
  /\ ~ well_formed [stake 5; atom 3]
  /\ DeductFeeDecorator_AnteHandle (keepers (Some "collector")) deliverCtx
       (aliceTx 100 [stake 5; atom 3]) false accept world0
     = Done (deliverCtx, Some (invalid_fee [stake 5; atom 3]))
         (looked_up (mkFeeTx 100 [stake 5; atom 3] "alice") world0).
Proof.
  assert (H1 : GetModuleAddress (demoAccounts (Some "collector")) FeeCollectorName
               = Some "collector") by reflexivity.
  assert (H2 : GetAccount (demoAccounts (Some "collector")) deliverCtx
                 (FeePayer (mkFeeTx 100 [stake 5; atom 3] "alice")) (store world0)
               = Some alice) by reflexivity.
  assert (H3 : Coins_IsZero (GetFee (mkFeeTx 100 [stake 5; atom 3] "alice")) = false)
    by reflexivity.
  assert (H4 : ~ well_formed (GetFee (mkFeeTx 100 [stake 5; atom 3] "alice"))).
  { intros H. apply Coins_IsValid_spec in H. discriminate H. }
  repeat (split; [assumption|]).
  exact (@DeductFee_malformed_fee demoHost (demoAccounts (Some "collector"))
           (Some demoBank) None deliverCtx (mkFeeTx 100 [stake 5; atom 3] "alice")
           false accept world0 "collector" alice H1 H2 H3 H4).
Defined.

(** X5, witness: a fee of [-5stake]. *)
Lemma DeductFee_negative_amount_witness :
  GetModuleAddress (demoAccounts (Some "collector")) FeeCollectorName
  = Some "collector"
  /\ GetAccount (demoAccounts (Some "collector")) deliverCtx "alice" (store world0)
     = Some alice
  /\ In (stake (-5)) [stake (-5)]
  /\ Amount (stake (-5)) < 0
  /\ DeductFeeDecorator_AnteHandle (keepers (Some "collector")) deliverCtx
       (aliceTx 100 [stake (-5)]) false accept world0
     = Done (deliverCtx, Some (invalid_fee [stake (-5)]))
         (looked_up (mkFeeTx 100 [stake (-5)] "alice") world0).
Proof.
  assert (H1 : GetModuleAddress (demoAccounts (Some "collector")) FeeCollectorName
               = Some "collector") by reflexivity.
  assert (H2 : GetAccount (demoAccounts (Some "collector")) deliverCtx
                 (FeePayer (mkFeeTx 100 [stake (-5)] "alice")) (store world0)
               = Some alice) by reflexivity.
  assert (H3 : In (stake (-5)) (GetFee (mkFeeTx 100 [stake (-5)] "alice")))
    by (left; reflexivity).
  assert (H4 : Amount (stake (-5)) < 0) by reflexivity.
  repeat (split; [assumption|]).
  exact (@DeductFee_negative_amount demoHost (demoAccounts (Some "collector"))
           (Some demoBank) None deliverCtx (mkFeeTx 100 [stake (-5)] "alice")
           false accept world0 "collector" alice (stake (-5)) H1 H2 H3 H4).
Defined.


(** X10, witness: a minimum of [0.1stake] at gas 100 and at gas 101. *)
Lemma requiredFees_grow_with_gas_witness :
  0 <= 100 <= 101 /\ 101 < 2 ^ 63
  /\ requiredFees [tenthStake] 100 = Ret [stake 10]
  /\ requiredFees [tenthStake] 101 = Ret [stake 11]
  /\ Forall2 (fun a b => Denom a = Denom b /\ Amount a <= Amount b)
       [stake 10] [stake 11].
Proof.
  assert (H1 : 0 <= 100 <= 101) by lia.
  assert (H2 : 101 < 2 ^ 63) by lia.
  assert (H3 : requiredFees [tenthStake] 100 = Ret [stake 10]) by reflexivity.
  assert (H4 : requiredFees [tenthStake] 101 = Ret [stake 11]) by reflexivity.
  repeat (split; [assumption|]).
  exact (@requiredFees_grow_with_gas demoHost [tenthStake] 100 101
           [stake 10] [stake 11] H1 H2 H3 H4).
Defined.

(** X11, witness: a minimum of [0.1stake], gas 100, [10stake] declared. *)
Lemma checkMinGasPrices_accepts_iff_witness :
  0 <= 100 < 2 ^ 63
  /\ DecCoins_IsZero [tenthStake] = false
  /\ Sorted dec_denom_lt [tenthStake]
  /\ Forall (priceable 100) [tenthStake]
  /\ valid_denoms [stake 10]
  /\ ((checkMinGasPrices [tenthStake] [stake 10] 100 = Ret None
       <-> pays_some [stake 10] [tenthStake] 100)
      /\ (~ pays_some [stake 10] [tenthStake] 100 ->
          checkMinGasPrices [tenthStake] [stake 10] 100
          = Ret (Some (insufficient_fees [stake 10] (required_at 100 [tenthStake]))))).
Proof.
  assert (H1 : 0 <= 100 < 2 ^ 63) by lia.
  assert (H2 : DecCoins_IsZero [tenthStake] = false) by reflexivity.
  assert (H3 : Sorted dec_denom_lt [tenthStake]) by (repeat constructor).
  assert (H4 : Forall (priceable 100) [tenthStake]).
  { repeat constructor; vm_compute; congruence. }
  assert (H5 : valid_denoms [stake 10]) by (repeat constructor).
  repeat (split; [assumption|]).
  exact (@checkMinGasPrices_accepts_iff demoHost [tenthStake] [stake 10] 100
           H1 H2 H3 H4 H5).
Defined.

(** X12, witness: from [10stake] to [1atom,12stake] at a minimum of
    [0.1stake] and gas 100. *)
Lemma checkMinGasPrices_monotone_witness :
  Sorted dec_denom_lt [tenthStake]
  /\ valid_denoms [stake 10]
  /\ valid_denoms [atom 1; stake 12]
  /\ covered [stake 10] [atom 1; stake 12]
  /\ checkMinGasPrices [tenthStake] [stake 10] 100 = Ret None
  /\ checkMinGasPrices [tenthStake] [atom 1; stake 12] 100 = Ret None.
Proof.
  assert (H1 : Sorted dec_denom_lt [tenthStake]) by (repeat constructor).
  assert (H2 : valid_denoms [stake 10]) by (repeat constructor).
  assert (H3 : valid_denoms [atom 1; stake 12]) by (repeat constructor).
  assert (H4 : covered [stake 10] [atom 1; stake 12]).
  { intros c [<-|[]]. exists (stake 12). cbn. repeat split; auto. lia. }
  assert (H5 : checkMinGasPrices [tenthStake] [stake 10] 100 = Ret None)
    by reflexivity.
  repeat (split; [assumption|]).
  exact (@checkMinGasPrices_monotone demoHost [tenthStake] [stake 10]
           [atom 1; stake 12] 100 H1 H2 H3 H4 H5).
Defined.

(** X13, witness: a minimum of [0.1stake], gas 0, [1000stake] declared. *)
Lemma checkMinGasPrices_zero_gas_witness :
  DecCoins_IsZero [tenthStake] = false
  /\ Forall (fun gp => ValidateDenom (DecDenom gp) = true) [tenthStake]
  /\ valid_denoms [stake 1000]
  /\ checkMinGasPrices [tenthStake] [stake 1000] 0
     = Ret (Some (insufficient_fees [stake 1000] (zero_coins [tenthStake]))).
Proof.
  assert (H1 : DecCoins_IsZero [tenthStake] = false) by reflexivity.
  assert (H2 : Forall (fun gp => ValidateDenom (DecDenom gp) = true) [tenthStake])
    by (repeat constructor).
  assert (H3 : valid_denoms [stake 1000]) by (repeat constructor).
  repeat (split; [assumption|]).
  exact (@checkMinGasPrices_zero_gas demoHost [tenthStake] [stake 1000] H1 H2 H3).
Defined.

(** X14, witness: a minimum of [1stake] at a gas limit of [2^63]. *)
Lemma checkMinGasPrices_large_gas_panics_witness :
  2 ^ 63 <= 2 ^ 63 < 2 ^ 64
  /\ In oneStake [oneStake]
  /\ precisionReuse <= dec_i (DecAmount oneStake) * (2 ^ 64 - 2 ^ 63)
  /\ exists msg, checkMinGasPrices [oneStake] [stake 5] (2 ^ 63) = Panic msg.
Proof.
  assert (H1 : 2 ^ 63 <= 2 ^ 63 < 2 ^ 64) by lia.
  assert (H2 : In oneStake [oneStake]) by (left; reflexivity).
  assert (H3 : precisionReuse <= dec_i (DecAmount oneStake) * (2 ^ 64 - 2 ^ 63))
    by (vm_compute; congruence).
  repeat (split; [assumption|]).
  exact (@checkMinGasPrices_large_gas_panics demoHost [oneStake] [stake 5]
           (2 ^ 63) oneStake H1 H2 H3).
Defined.

End PathExamples.
